(** * Sketchbook: the airplane flight model (src/ts/vehicles/Airplane.ts)

    A shallow embedding of [Airplane.update] (engine power ramp and
    control-surface spring targets) and of the canonical, stall-aware
    [Airplane.physicsPreStep] (the second of the two versions of the file),
    followed by the properties the specification states about them.

    JavaScript numbers are IEEE-754 binary64 values and the [Math] functions
    are supplied by the engine.  The program is therefore written once, over
    an interface [JsNumber] of the arithmetic it uses, and then read at two
    instances:
    - [IEEE M]: primitive binary64 floats, with the engine's [Math.asin],
      [Math.cos], [Math.sin] and [Math.pow] given by a [MathLib] [M];
      this is the program as it runs, and it evaluates;
    - [Ideal]: the real numbers, the arithmetic the formulas are designed in. *)

From Stdlib Require Import Floats QArith Reals Lra Lia List Bool ZArith.
From Stdlib Require String.
Import String.StringSyntax.
Import ListNotations.

Close Scope Q_scope.
Set Warnings "-inexact-float".

(** ** The numbers of the program *)

Class JsNumber (num : Type) : Type := {
  lit : Q -> num;                     (* a decimal literal of the source *)
  add : num -> num -> num;
  subtract : num -> num -> num;
  multiply : num -> num -> num;
  divide : num -> num -> num;
  unaryMinus : num -> num;
  lessThan : num -> num -> bool;      (* a < b *)
  lessEq : num -> num -> bool;        (* a <= b *)
  Math_abs : num -> num;
  Math_sqrt : num -> num;
  Math_asin : num -> num;
  Math_cos : num -> num;
  Math_sin : num -> num;
  Math_pow : num -> num -> num;
  Math_E : num;
  Math_PI : num
}.

Arguments lit {num _} _%_Q.

Declare Scope js_scope.
Delimit Scope js_scope with js.
Notation "a + b" := (add a b) : js_scope.
Notation "a - b" := (subtract a b) : js_scope.
Notation "a * b" := (multiply a b) : js_scope.
Notation "a / b" := (divide a b) : js_scope.
Notation "- a" := (unaryMinus a) : js_scope.
Notation "a <? b" := (lessThan a b) : js_scope.
Notation "a <=? b" := (lessEq a b) : js_scope.
Notation "a >? b" := (lessThan b a) : js_scope.
Notation "a >=? b" := (lessEq b a) : js_scope.

(** ** CANNON.Vec3 *)

Module Vec3.
Section Vec3.
Context {num : Type} {N : JsNumber num}.
Local Open Scope js_scope.

Record t : Type := new { x : num; y : num; z : num }.

(** Modelled from the spec: [CANNON.Vec3.length] is not in src/; the spec
    calls it the speed [s = |v|], the Euclidean norm. *)
Definition length (v : t) : num :=
  Math_sqrt (x v * x v + y v * y v + z v * z v).

(** Modelled from the spec: [CANNON.Vec3.normalize] is not in src/; the spec
    calls its result the normalized velocity direction.  The zero vector
    stays zero. *)
Definition normalize (v : t) : t :=
  let n := length v in
  if n >? lit 0 then
    let invN := lit 1 / n in new (x v * invN) (y v * invN) (z v * invN)
  else new (lit 0) (lit 0) (lit 0).

(** Modelled from the spec: [CANNON.Vec3.negate] is not in src/; the drag
    acts opposite to the velocity direction. *)
Definition negate (v : t) : t := new (- x v) (- y v) (- z v).

(** Modelled from the spec: [CANNON.Vec3.scale] is not in src/; the
    product of a vector by a scalar. *)
Definition scale (v : t) (s : num) : t := new (s * x v) (s * y v) (s * z v).

(** Sum, scalar product and vector product, for the resultant of the
    forces handed to the integrator. *)
Definition plus (u v : t) : t := new (x u + x v) (y u + y v) (z u + z v).

Definition dot (u v : t) : num := x u * x v + y u * y v + z u * z v.

Definition cross (u v : t) : t :=
  new (y u * z v - z u * y v) (z u * x v - x u * z v) (x u * y v - y u * x v).

End Vec3.
Arguments t num : clear implicits.
End Vec3.

(** ** CANNON.Quaternion

    The hook takes the two operations it calls as parameters (section
    Airplane below); [inverse] and [vmult] are the usual Hamilton-product
    formulas, to run it with. *)

Module Quaternion.
Section Quaternion.
Context {num : Type} {N : JsNumber num}.
Local Open Scope js_scope.

Record t : Type := new { x : num; y : num; z : num; w : num }.

Definition conjugate (q : t) : t := new (- x q) (- y q) (- z q) (w q).

Definition inverse (q : t) : t :=
  let c := conjugate q in
  let inorm2 := lit 1 / (x q * x q + y q * y q + z q * z q + w q * w q) in
  new (x c * inorm2) (y c * inorm2) (z c * inorm2) (w c * inorm2).

Definition vmult (q : t) (v : Vec3.t num) : Vec3.t num :=
  let ix := w q * Vec3.x v + y q * Vec3.z v - z q * Vec3.y v in
  let iy := w q * Vec3.y v + z q * Vec3.x v - x q * Vec3.z v in
  let iz := w q * Vec3.z v + x q * Vec3.y v - y q * Vec3.x v in
  let iw := - x q * Vec3.x v - y q * Vec3.y v - z q * Vec3.z v in
  Vec3.new (ix * w q + iw * - x q + iy * - z q - iz * - y q)
           (iy * w q + iw * - y q + iz * - x q - ix * - z q)
           (iz * w q + iw * - z q + ix * - y q - iy * - x q).

End Quaternion.
Arguments t num : clear implicits.
End Quaternion.

(** ** Key bindings and the action table of the constructor *)

Record KeyBinding : Type := {
  isPressed : bool;
  justPressed : bool;
  justReleased : bool
}.

Record Actions : Type := {
  throttle : KeyBinding;
  brake : KeyBinding;
  wheelBrake : KeyBinding;
  pitchUp : KeyBinding;
  pitchDown : KeyBinding;
  yawLeft : KeyBinding;
  yawRight : KeyBinding;
  rollLeft : KeyBinding;
  rollRight : KeyBinding;
  exitVehicle : KeyBinding;
  seat_switch : KeyBinding;
  view : KeyBinding
}.

(** An opaque handle to the character in the seat. *)
Inductive Character : Type := character (id : nat).

(** ** SpringSimulator *)

Module SpringSimulator.
(** Modelled from the spec: the class SpringSimulator is not in src/; the
    spec gives its state as position, velocity, target, mass, damping and
    the configured frame rate. *)
Record t (num : Type) : Type := {
  position : num;
  velocity : num;
  target : num;
  mass : num;
  damping : num;
  frameRate : num
}.
Arguments position {num}.
Arguments velocity {num}.
Arguments target {num}.
Arguments mass {num}.
Arguments damping {num}.
Arguments frameRate {num}.

(** The assignment [simulator.target = value]. *)
Definition setTarget {num : Type} (s : t num) (value : num) : t num :=
  {| position := position s; velocity := velocity s; target := value;
     mass := mass s; damping := damping s; frameRate := frameRate s |}.

(** [new SpringSimulator(fps, mass, damping)], at rest at 0. *)
Definition make {num : Type} {N : JsNumber num} (fps m d : num) : t num :=
  {| position := lit 0; velocity := lit 0; target := lit 0;
     mass := m; damping := d; frameRate := fps |}.
End SpringSimulator.

(** ** CANNON.Body: the kinematics read by the hook, and the forces handed
    to the integrator, one entry per call of [applyLocalForce], in call
    order: the force and its application point, both in the body frame. *)

Module Body.
Record t (num : Type) : Type := {
  quaternion : Quaternion.t num;
  velocity : Vec3.t num;
  forces : list (Vec3.t num * Vec3.t num)
}.
Arguments quaternion {num}.
Arguments velocity {num}.
Arguments forces {num}.

Definition applyLocalForce {num : Type} (b : t num)
    (force localPoint : Vec3.t num) : t num :=
  {| quaternion := quaternion b; velocity := velocity b;
     forces := forces b ++ [(force, localPoint)] |}.
End Body.

(** ** The airplane *)

Section Airplane.
Context {num : Type} {N : JsNumber num}.
Local Open Scope js_scope.

(** [SpringSimulator.simulate(timeStep)], not in src/. *)
Variable simulate : num -> SpringSimulator.t num -> SpringSimulator.t num.

(** [body.quaternion.inverse()] and [q.vmult(v)] of cannon.js. *)
Variable Quaternion_inverse : Quaternion.t num -> Quaternion.t num.
Variable Quaternion_vmult : Quaternion.t num -> Vec3.t num -> Vec3.t num.

(** The fields of the object that [update] and [physicsPreStep] read or
    write.  The first four belong to the base class Vehicle: the action
    table, the character in control ([None] is [undefined]),
    [rayCastVehicle.numWheelsOnGround] and the value last given to
    [setSteeringValue].  [rotor] is the angle accumulated by [rotateX];
    the control surfaces are their [rotation.y]. *)
Record Airplane : Type := {
  actions : Actions;
  controllingCharacter : option Character;
  numWheelsOnGround : nat;
  steeringValue : num;
  rotor : num;
  leftAileron : num;
  rightAileron : num;
  elevators : list num;
  rudder : num;
  steeringSimulator : SpringSimulator.t num;
  aileronSimulator : SpringSimulator.t num;
  elevatorSimulator : SpringSimulator.t num;
  rudderSimulator : SpringSimulator.t num;
  enginePower : num;
  lastDrag : num
}.

(** The state the constructor leaves, for an asset with the given
    number of elevator surfaces: every key released, nobody in the seat,
    the four simulators at rest, the engine off. *)
Definition released : KeyBinding :=
  {| isPressed := false; justPressed := false; justReleased := false |}.

Definition constructed (elevatorCount wheels : nat) : Airplane :=
  {| actions :=
       {| throttle := released; brake := released; wheelBrake := released;
          pitchUp := released; pitchDown := released;
          yawLeft := released; yawRight := released;
          rollLeft := released; rollRight := released;
          exitVehicle := released; seat_switch := released; view := released |};
     controllingCharacter := None;
     numWheelsOnGround := wheels;
     steeringValue := lit 0;
     rotor := lit 0;
     leftAileron := lit 0;
     rightAileron := lit 0;
     elevators := repeat (lit 0) elevatorCount;
     rudder := lit 0;
     steeringSimulator := SpringSimulator.make (lit 60) (lit 10) (lit 0.6);
     aileronSimulator := SpringSimulator.make (lit 60) (lit 5) (lit 0.6);
     elevatorSimulator := SpringSimulator.make (lit 60) (lit 7) (lit 0.6);
     rudderSimulator := SpringSimulator.make (lit 60) (lit 10) (lit 0.6);
     enginePower := lit 0;
     lastDrag := lit 0 |}.

(** [noDirectionPressed()] *)
Definition noDirectionPressed (this : Airplane) : bool :=
  negb (isPressed (throttle (actions this))) &&
  negb (isPressed (brake (actions this))) &&
  negb (isPressed (yawLeft (actions this))) &&
  negb (isPressed (yawRight (actions this))) &&
  negb (isPressed (rollLeft (actions this))) &&
  negb (isPressed (rollRight (actions this))).

(** *** update *)

(** [this.controllingCharacter !== undefined] *)
Definition controlled (this : Airplane) : bool :=
  match controllingCharacter this with Some _ => true | None => false end.

(** "Rotors visuals": the new value of [this.enginePower]. *)
Definition enginePowerStep (isControlled : bool) (timeStep enginePower : num) : num :=
  if isControlled then
    let p := if enginePower <? lit 1 then enginePower + timeStep * lit 0.4
             else enginePower in
    if p >? lit 1 then lit 1 else p
  else
    let p := if enginePower >? lit 0 then enginePower - timeStep * lit 0.12
             else enginePower in
    if p <? lit 0 then lit 0 else p.

(** "Steering": the value assigned to [steeringSimulator.target]. *)
Definition steeringTarget (a : Actions) (wheels : nat) : num :=
  if (0 <? wheels)%nat then
    if (isPressed (yawLeft a) || isPressed (rollLeft a))
       && negb (isPressed (yawRight a)) && negb (isPressed (rollRight a))
    then lit 0.8
    else if (isPressed (yawRight a) || isPressed (rollRight a))
       && negb (isPressed (yawLeft a)) && negb (isPressed (rollLeft a))
    then - lit 0.8
    else lit 0
  else lit 0.

Definition partsRotationAmount : num := lit 0.7.

(** "Ailerons": the value assigned to [aileronSimulator.target]. *)
Definition aileronTarget (a : Actions) : num :=
  if isPressed (rollLeft a) && negb (isPressed (rollRight a))
  then partsRotationAmount
  else if negb (isPressed (rollLeft a)) && isPressed (rollRight a)
  then - partsRotationAmount
  else lit 0.

(** "Elevators": the value assigned to [elevatorSimulator.target]. *)
Definition elevatorTarget (a : Actions) : num :=
  if isPressed (pitchUp a) && negb (isPressed (pitchDown a))
  then partsRotationAmount
  else if negb (isPressed (pitchUp a)) && isPressed (pitchDown a)
  then - partsRotationAmount
  else lit 0.

(** "Rudder": the value assigned to [rudderSimulator.target]. *)
Definition rudderTarget (a : Actions) : num :=
  if isPressed (yawLeft a) && negb (isPressed (yawRight a))
  then partsRotationAmount
  else if negb (isPressed (yawLeft a)) && isPressed (yawRight a)
  then - partsRotationAmount
  else lit 0.

(** The tie-break rule in the words of the specification, to compare
    the four assignments with: when exactly one action of an opposing pair
    is pressed the target is plus or minus the deflection magnitude, when
    both or neither are pressed it is neutral. *)
Definition tieBreak (positive negative : bool) (magnitude : num) : num :=
  if xorb positive negative
  then (if positive then magnitude else - magnitude)
  else lit 0.

(** [update(timeStep)], from the statement after [super.update(timeStep)]
    on (Vehicle.update is not in src/; the fields of the base class are
    taken as that call leaves them).  Each field is written once, so the
    assignments of the source become the bindings below, in source order. *)
Definition update (timeStep : num) (this : Airplane) : Airplane :=
  (* Rotors visuals *)
  let enginePower1 := enginePowerStep (controlled this) timeStep (enginePower this) in
  let rotor1 := rotor this + enginePower1 * timeStep * lit 60 in
  (* Steering *)
  let steering1 :=
    simulate timeStep
      (SpringSimulator.setTarget (steeringSimulator this)
         (steeringTarget (actions this) (numWheelsOnGround this))) in
  let steeringValue1 := SpringSimulator.position steering1 in
  (* Ailerons, Elevators, Rudder *)
  let aileron0 :=
    SpringSimulator.setTarget (aileronSimulator this) (aileronTarget (actions this)) in
  let elevator0 :=
    SpringSimulator.setTarget (elevatorSimulator this) (elevatorTarget (actions this)) in
  let rudder0 :=
    SpringSimulator.setTarget (rudderSimulator this) (rudderTarget (actions this)) in
  (* Run rotation simulators *)
  let aileron1 := simulate timeStep aileron0 in
  let elevator1 := simulate timeStep elevator0 in
  let rudder1 := simulate timeStep rudder0 in
  (* Rotate parts *)
  {| actions := actions this;
     controllingCharacter := controllingCharacter this;
     numWheelsOnGround := numWheelsOnGround this;
     steeringValue := steeringValue1;
     rotor := rotor1;
     leftAileron := SpringSimulator.position aileron1;
     rightAileron := - SpringSimulator.position aileron1;
     elevators := map (fun _ => SpringSimulator.position elevator1) (elevators this);
     rudder := SpringSimulator.position rudder1;
     steeringSimulator := steering1;
     aileronSimulator := aileron1;
     elevatorSimulator := elevator1;
     rudderSimulator := rudder1;
     enginePower := enginePower1;
     lastDrag := lastDrag this |}.

(** What reaches the airplane between two ticks from outside: the input
    subsystem rewrites the action table, a character takes or leaves the
    seat, the physics engine recounts the wheels on the ground. *)
Record Inputs : Type := {
  in_actions : Actions;
  in_controllingCharacter : option Character;
  in_numWheelsOnGround : nat
}.

Definition setInputs (i : Inputs) (this : Airplane) : Airplane :=
  {| actions := in_actions i;
     controllingCharacter := in_controllingCharacter i;
     numWheelsOnGround := in_numWheelsOnGround i;
     steeringValue := steeringValue this;
     rotor := rotor this;
     leftAileron := leftAileron this;
     rightAileron := rightAileron this;
     elevators := elevators this;
     rudder := rudder this;
     steeringSimulator := steeringSimulator this;
     aileronSimulator := aileronSimulator this;
     elevatorSimulator := elevatorSimulator this;
     rudderSimulator := rudderSimulator this;
     enginePower := enginePower this;
     lastDrag := lastDrag this |}.

(** The airplane with its engine at the given power. *)
Definition setEnginePower (power : num) (this : Airplane) : Airplane :=
  {| actions := actions this;
     controllingCharacter := controllingCharacter this;
     numWheelsOnGround := numWheelsOnGround this;
     steeringValue := steeringValue this;
     rotor := rotor this;
     leftAileron := leftAileron this;
     rightAileron := rightAileron this;
     elevators := elevators this;
     rudder := rudder this;
     steeringSimulator := steeringSimulator this;
     aileronSimulator := aileronSimulator this;
     elevatorSimulator := elevatorSimulator this;
     rudderSimulator := rudderSimulator this;
     enginePower := power;
     lastDrag := lastDrag this |}.

(** One update tick: the inputs of the tick, then [update]. *)
Definition tick (this : Airplane) (t : Inputs * num) : Airplane :=
  update (snd t) (setInputs (fst t) this).

(** A sequence of update ticks. *)
Definition run (ticks : list (Inputs * num)) (this : Airplane) : Airplane :=
  fold_left tick ticks this.

(** The airplane after each tick of a sequence. *)
Fixpoint trace (ticks : list (Inputs * num)) (this : Airplane) : list Airplane :=
  match ticks with
  | [] => []
  | t :: rest => tick this t :: trace rest (tick this t)
  end.

(** *** physicsPreStep (canonical version) *)

Definition alphaMax : num := lit 0.35.
Definition wingS : num := lit 0.7.
Definition height : num := lit 0.

Definition dynamicPressure (squareSpeed : num) : num :=
  squareSpeed * lit 1.225 * Math_pow Math_E (- lit 0.000141 * height) * lit 0.5.

(** The quotient handed to [Math.asin] for the sideslip. *)
Definition betaArg (velocity : Vec3.t num) : num :=
  Vec3.x velocity / Vec3.length velocity.

Definition beta (velocity : Vec3.t num) : num :=
  if Vec3.length velocity >? lit 0.5 then Math_asin (betaArg velocity) else lit 0.

(** The quotient handed to [Math.asin] for the angle of attack. *)
Definition alphaArg (velocity : Vec3.t num) : num :=
  Vec3.y velocity / (Vec3.length velocity * Math_cos (beta velocity)).

Definition alpha (velocity : Vec3.t num) : num :=
  if Vec3.length velocity >? lit 0.5 then - Math_asin (alphaArg velocity) else lit 0.

(** "aerodynamic coef": [cL], bound to [liftCoef]. *)
Definition liftCoef (alpha : num) : num :=
  if Math_abs alpha <? alphaMax then lit 4.3 * alpha
  else if (alpha <=? - alphaMax) && (alpha >? - lit 0.7) then - lit 4.3 * alpha - lit 3.1
  else if (alpha >=? alphaMax) && (alpha <? lit 0.7) then - lit 4.3 * alpha + lit 3.1
  else lit 0.

Definition cL0 : num := lit 0.5.

Definition dragCoef (alpha : num) : num :=
  if Math_abs alpha <? Math_PI * lit 0.5 then lit 0.35 + alpha * alpha
  else lit 0.35 + (Math_abs alpha - Math_PI * lit 0.5) * (Math_abs alpha - Math_PI * lit 0.5).

Definition pitchF (alpha squareSpeed : num) : num :=
  if alpha <? alphaMax then squareSpeed * lit 0.04 else squareSpeed * lit 0.02.

Definition yawF (beta squareSpeed : num) : num :=
  if beta <? alphaMax then squareSpeed * lit 0.04 else squareSpeed * lit 0.02.

(** "Thrust": the value of [trust] when it is applied. *)
Definition trust (a : Actions) (enginePower : num) : num :=
  if isPressed (throttle a) && negb (isPressed (brake a))
  then lit 400 * enginePower else lit 0.

(** The hook runs on two objects it holds by reference, the airplane and
    its rigid body. *)
Record World : Type := { plane : Airplane; body : Body.t num }.

Definition Step (A : Type) : Type := World -> A * World.

Definition ret {A : Type} (a : A) : Step A := fun w => (a, w).

Definition bind {A B : Type} (m : Step A) (k : A -> Step B) : Step B :=
  fun w => let (a, w1) := m w in k a w1.

Notation "x <- m ;; k" := (bind m (fun x => k))
  (at level 100, m at next level, right associativity).
Notation "m ;; k" := (bind m (fun _ => k))
  (at level 100, right associativity).

(** A read of a field of the airplane ([this] and [plane] are the same
    object) or of the body. *)
Definition ofPlane {A : Type} (field : Airplane -> A) : Step A :=
  fun w => (field (plane w), w).

Definition ofBody {A : Type} (field : Body.t num -> A) : Step A :=
  fun w => (field (body w), w).

(** [plane.actions.<key>.isPressed] *)
Definition pressed (key : Actions -> KeyBinding) : Step bool :=
  ofPlane (fun p => isPressed (key (actions p))).

(** [body.applyLocalForce(force, localPoint)] *)
Definition applyLocalForce (force localPoint : Vec3.t num) : Step unit :=
  fun w => (tt, {| plane := plane w;
                   body := Body.applyLocalForce (body w) force localPoint |}).

(** [if (c) { m }] *)
Definition when (c : bool) (m : Step unit) : Step unit :=
  if c then m else ret tt.

Definition physicsPreStep : Step unit :=
  let mid := Vec3.new (lit 0) (lit 0) (lit 0) in
  (* local speed *)
  q <- ofBody Body.quaternion ;;
  v <- ofBody Body.velocity ;;
  let velocity := Quaternion_vmult (Quaternion_inverse q) v in
  let currentSpeed := Vec3.length velocity in
  let squareSpeed := currentSpeed * currentSpeed in
  let dynamicPressure := dynamicPressure squareSpeed in
  let beta := beta velocity in
  let alpha := alpha velocity in
  (* aerodynamic coef *)
  let liftCoef := liftCoef alpha in
  let dragCoef := dragCoef alpha in
  let flowDirection := Vec3.negate (Vec3.normalize velocity) in
  (* aerodynamic center (focus) *)
  let aeroCenterPos := Vec3.new (lit 0) (lit 0) (- lit 0.1) in
  (* pressure center *)
  wheels <- ofPlane numWheelsOnGround ;;
  let pressCenterPos :=
    Vec3.new (lit 0) (lit 0) (if (0 <? wheels)%nat then lit 0.2 else lit 0.05) in
  (* Pitch *)
  let pitchF := pitchF alpha squareSpeed in
  up <- pressed pitchUp ;;
  when up (applyLocalForce (Vec3.new (lit 0) (- pitchF) (lit 0))
                           (Vec3.new (lit 0) (lit 0) (- lit 1))) ;;
  down <- pressed pitchDown ;;
  when down (applyLocalForce (Vec3.new (lit 0) pitchF (lit 0))
                             (Vec3.new (lit 0) (lit 0) (- lit 1))) ;;
  (* Yaw *)
  let yawF := yawF beta squareSpeed in
  left <- pressed yawLeft ;;
  when left (applyLocalForce (Vec3.new (- yawF) (lit 0) (lit 0))
                             (Vec3.new (lit 0) (lit 0) (- lit 1))) ;;
  right <- pressed yawRight ;;
  when right (applyLocalForce (Vec3.new yawF (lit 0) (lit 0))
                              (Vec3.new (lit 0) (lit 0) (- lit 1))) ;;
  (* Roll *)
  rleft <- pressed rollLeft ;;
  when rleft
    (applyLocalForce (Vec3.new (lit 0) (lit 3 * - currentSpeed) (lit 0))
                     (Vec3.new (lit 1) (lit 0) (lit 0)) ;;
     applyLocalForce (Vec3.new (lit 0) (lit 3 * currentSpeed) (lit 0))
                     (Vec3.new (- lit 1) (lit 0) (lit 0))) ;;
  rright <- pressed rollRight ;;
  when rright
    (applyLocalForce (Vec3.new (lit 0) (lit 3 * currentSpeed) (lit 0))
                     (Vec3.new (lit 1) (lit 0) (lit 0)) ;;
     applyLocalForce (Vec3.new (lit 0) (lit 3 * - currentSpeed) (lit 0))
                     (Vec3.new (- lit 1) (lit 0) (lit 0))) ;;
  (* Thrust *)
  a <- ofPlane actions ;;
  power <- ofPlane enginePower ;;
  let trustVec := Vec3.new (lit 0) (lit 0) (trust a power) in
  applyLocalForce trustVec mid ;;
  (* Drag *)
  let drag := dragCoef * dynamicPressure * wingS in
  let dragVec := Vec3.scale flowDirection drag in
  applyLocalForce dragVec aeroCenterPos ;;
  (* Lift *)
  let lift0 := cL0 * dynamicPressure * wingS in
  let lift0Vec := Vec3.new (lit 0) (lift0 * Math_cos alpha) (lift0 * Math_sin alpha) in
  applyLocalForce lift0Vec pressCenterPos ;;
  let lift := liftCoef * dynamicPressure * wingS in
  let liftVec := Vec3.new (lit 0) (lift * Math_cos alpha) (lift * Math_sin alpha) in
  applyLocalForce liftVec aeroCenterPos ;;
  (* Side *)
  let side := beta * dynamicPressure in
  let sideVec := Vec3.new (- side) (lit 0) (lit 0) in
  applyLocalForce sideVec aeroCenterPos.

(** What a step adds to the body's list of forces. *)
Definition added {A : Type} (m : Step A) (w : World) : list (Vec3.t num * Vec3.t num) :=
  skipn (List.length (Body.forces (body w))) (Body.forces (body (snd (m w)))).

(** The forces one invocation hands to the integrator. *)
Definition applied (w : World) : list (Vec3.t num * Vec3.t num) :=
  added physicsPreStep w.

(** [w] with the forces [l] appended to its body, nothing else touched. *)
Definition extend (w : World) (l : list (Vec3.t num * Vec3.t num)) : World :=
  {| plane := plane w;
     body := {| Body.quaternion := Body.quaternion (body w);
                Body.velocity := Body.velocity (body w);
                Body.forces := Body.forces (body w) ++ l |} |}.

(** The inputs the specification lists: body kinematics, control-action
    states, ground-contact wheel count, engine power. *)
Definition same_inputs (w1 w2 : World) : Prop :=
  Body.velocity (body w1) = Body.velocity (body w2) /\
  Body.quaternion (body w1) = Body.quaternion (body w2) /\
  actions (plane w1) = actions (plane w2) /\
  numWheelsOnGround (plane w1) = numWheelsOnGround (plane w2) /\
  enginePower (plane w1) = enginePower (plane w2).

(** A step is pure when all it does to the world is append forces, and
    its result and those forces are determined by the inputs. *)
Definition pure_step {A : Type} (m : Step A) : Prop :=
  (forall w, snd (m w) = extend w (added m w)) /\
  (forall w1 w2, same_inputs w1 w2 ->
     fst (m w1) = fst (m w2) /\ added m w1 = added m w2).

(** The same world with no force on the body yet. *)
Definition clearForces (w : World) : World :=
  {| plane := plane w;
     body := {| Body.quaternion := Body.quaternion (body w);
                Body.velocity := Body.velocity (body w);
                Body.forces := [] |} |}.

(** The body-local velocity the hook computes. *)
Definition localVelocity (w : World) : Vec3.t num :=
  Quaternion_vmult (Quaternion_inverse (Body.quaternion (body w)))
                   (Body.velocity (body w)).

(** The resultant of a list of forces: their sum, and the sum of their
    moments about the origin of the body frame, point x force. *)
Definition netForce (l : list (Vec3.t num * Vec3.t num)) : Vec3.t num :=
  fold_right (fun fp total => Vec3.plus (fst fp) total)
             (Vec3.new (lit 0) (lit 0) (lit 0)) l.

Definition netTorque (l : list (Vec3.t num * Vec3.t num)) : Vec3.t num :=
  fold_right (fun fp total => Vec3.plus (Vec3.cross (snd fp) (fst fp)) total)
             (Vec3.new (lit 0) (lit 0) (lit 0)) l.

End Airplane.

Arguments Airplane num : clear implicits.
Arguments World num : clear implicits.

(** ** The program on IEEE-754 binary64 numbers *)

(** The functions of [Math] that ECMAScript leaves to the engine. *)
Record MathLib : Type := {
  asin_impl : float -> float;
  cos_impl : float -> float;
  sin_impl : float -> float;
  pow_impl : float -> float -> float
}.

Definition float_of_Z (n : Z) : float :=
  match n with
  | Z0 => 0%float
  | Zpos _ => PrimFloat.of_uint63 (Uint63.of_Z n)
  | Zneg p => PrimFloat.opp (PrimFloat.of_uint63 (Uint63.of_Z (Zpos p)))
  end.

(** A decimal literal denotes the binary64 value nearest to it; for the
    literals of this program (numerator and denominator below 2^53) that is
    the correctly rounded quotient. *)
Definition float_of_Q (q : Q) : float :=
  PrimFloat.div (float_of_Z (Qnum q)) (float_of_Z (Zpos (Qden q))).

Definition IEEE (M : MathLib) : JsNumber float := {|
  lit := float_of_Q;
  add := PrimFloat.add;
  subtract := PrimFloat.sub;
  multiply := PrimFloat.mul;
  divide := PrimFloat.div;
  unaryMinus := PrimFloat.opp;
  lessThan := PrimFloat.ltb;
  lessEq := PrimFloat.leb;
  Math_abs := PrimFloat.abs;
  Math_sqrt := PrimFloat.sqrt;
  Math_asin := asin_impl M;
  Math_cos := cos_impl M;
  Math_sin := sin_impl M;
  Math_pow := pow_impl M;
  Math_E := 2.718281828459045%float;
  Math_PI := 3.141592653589793%float
|}.

(** JavaScript's [a === b] on numbers. *)
Definition js_eq (a b : float) : bool := PrimFloat.eqb a b.

(** [x] is a number of the closed interval [-1, 1], the domain of
    [Math.asin]; false for NaN. *)
Definition in_asin_domain (x : float) : bool :=
  PrimFloat.leb (-1)%float x && PrimFloat.leb x 1%float.

(** ** The program on real numbers *)

#[global] Instance Ideal : JsNumber R := {|
  lit := Q2R;
  add := Rplus;
  subtract := Rminus;
  multiply := Rmult;
  divide := Rdiv;
  unaryMinus := Ropp;
  lessThan := fun a b => if Rlt_dec a b then true else false;
  lessEq := fun a b => if Rle_dec a b then true else false;
  Math_abs := Rabs;
  Math_sqrt := sqrt;
  Math_asin := asin;
  Math_cos := cos;
  Math_sin := sin;
  Math_pow := Rpower;
  Math_E := exp 1;
  Math_PI := PI
|}.

(** ** A spring to run [update] with: one explicit Euler step of a
    damped spring towards the target.  It serves to evaluate the program
    at concrete inputs. *)

Module SampleSpring.
Section SampleSpring.
Context {num : Type} {N : JsNumber num}.
Local Open Scope js_scope.

Definition simulate (timeStep : num) (s : SpringSimulator.t num) : SpringSimulator.t num :=
  let acceleration :=
    (SpringSimulator.target s - SpringSimulator.position s
     - SpringSimulator.damping s * SpringSimulator.velocity s) / SpringSimulator.mass s in
  let v := SpringSimulator.velocity s + acceleration * timeStep in
  {| SpringSimulator.position := SpringSimulator.position s + v * timeStep;
     SpringSimulator.velocity := v;
     SpringSimulator.target := SpringSimulator.target s;
     SpringSimulator.mass := SpringSimulator.mass s;
     SpringSimulator.damping := SpringSimulator.damping s;
     SpringSimulator.frameRate := SpringSimulator.frameRate s |}.

End SampleSpring.
End SampleSpring.

(** ** A Math library to run the binary64 program with

    Truncated power series with the two-constant reduction around pi/2
    that engines use.  It serves to evaluate the program at concrete
    inputs. *)

Module SampleMath.
Local Open Scope float_scope.

(** [nest k n f init] is [f k (f (k+1) (... (f (k+n-1) init)))]. *)
Fixpoint nest (k : Z) (n : nat) (f : Z -> float -> float) (init : float) : float :=
  match n with
  | O => init
  | S n' => f k (nest (k + 1)%Z n' f init)
  end.

Definition pio2_hi : float := 1.5707963267948966.
Definition pio2_lo : float := 6.123233995736766e-17.
Definition pio4 : float := 0.7853981633974483.

Definition sin_series (x : float) : float :=
  x * nest 1 20 (fun k acc =>
        1 - x * x / (float_of_Z (2 * k) * float_of_Z (2 * k + 1)) * acc) 1.

Definition cos_series (x : float) : float :=
  nest 1 20 (fun k acc =>
        1 - x * x / (float_of_Z (2 * k - 1) * float_of_Z (2 * k)) * acc) 1.

Definition asin_series (x : float) : float :=
  x * nest 1 40 (fun k acc =>
        1 + x * x * (float_of_Z ((2 * k - 1) * (2 * k - 1))
                     / float_of_Z (2 * k * (2 * k + 1))) * acc) 1.

Definition exp_series (x : float) : float :=
  nest 1 60 (fun k acc => 1 + x / float_of_Z k * acc) 1.

Definition ln_series (x : float) : float :=
  let t := (x - 1) / (x + 1) in
  2 * t * nest 0 60 (fun k acc => 1 / float_of_Z (2 * k + 1) + t * t * acc) 0.

Definition cos (x : float) : float :=
  let a := PrimFloat.abs x in
  if a <=? pio4 then cos_series a
  else if a <=? 3 * pio4 then sin_series ((pio2_hi - a) + pio2_lo)
  else cos_series a.

Definition sin (x : float) : float :=
  let a := PrimFloat.abs x in
  if a <=? pio4 then sin_series x
  else if a <=? 3 * pio4 then
    (if x <? 0 then - cos_series ((pio2_hi - a) + pio2_lo)
     else cos_series ((pio2_hi - a) + pio2_lo))
  else sin_series x.

Definition asin (x : float) : float :=
  let a := PrimFloat.abs x in
  if a <=? 0.5 then asin_series x
  else if a <=? 1 then
    let r := (pio2_hi - 2 * asin_series (PrimFloat.sqrt ((1 - a) / 2))) + pio2_lo in
    if x <? 0 then - r else r
  else nan.

Definition pow (b e : float) : float :=
  if e =? 0 then 1 else exp_series (e * ln_series b).

Definition lib : MathLib :=
  {| asin_impl := asin; cos_impl := cos; sin_impl := sin; pow_impl := pow |}.

End SampleMath.


(** ** Concrete situations, on binary64 numbers with [SampleMath.lib] *)

Module Scenario.
Local Open Scope float_scope.

#[local] Instance numbers : JsNumber float := IEEE SampleMath.lib.

Definition held : KeyBinding :=
  {| isPressed := true; justPressed := false; justReleased := false |}.

(** The action table with the keys [t] throttle, [pu] pitch up, [yl] yaw
    left and [rl] roll left held or not, every other key released. *)
Definition keys (t pu yl rl : bool) : Actions :=
  let key (b : bool) := if b then held else released in
  {| throttle := key t; brake := released; wheelBrake := released;
     pitchUp := key pu; pitchDown := released;
     yawLeft := key yl; yawRight := released;
     rollLeft := key rl; rollRight := released;
     exitVehicle := released; seat_switch := released; view := released |}.

(** A freshly constructed airplane with two elevators, then given its
    inputs: the keys, a pilot or none, the wheels on the ground. *)
Definition airplane (a : Actions) (pilot : bool) (wheels : nat) : Airplane float :=
  setInputs
    {| in_actions := a;
       in_controllingCharacter := if pilot then Some (character 0) else None;
       in_numWheelsOnGround := wheels |}
    (constructed 2 wheels).

(** The same airplane, piloted, with the engine at the given power. *)
Definition airplaneAtPower (a : Actions) (wheels : nat) (power : float) : Airplane float :=
  setEnginePower power (airplane a true wheels).

(** A body in the reference orientation, so that the body-local velocity
    is the world velocity, carrying no force yet. *)
Definition bodyMoving (v : Vec3.t float) : Body.t float :=
  {| Body.quaternion := Quaternion.new 0 0 0 1;
     Body.velocity := v;
     Body.forces := [] |}.

Definition world (p : Airplane float) (v : Vec3.t float) : World float :=
  {| plane := p; body := bodyMoving v |}.

(** One frame at sixty frames a second. *)
Definition frame : float := 1 / 60.

End Scenario.

(** ** Vocabulary of the statements about sequences of ticks *)

(** Simulated time covered by a sequence of ticks. *)
Definition elapsed (ticks : list (Inputs * R)) : R :=
  fold_right (fun t total => (snd t + total)%R) 0%R ticks.

(** A tick with nobody in control, and a tick with a character in control. *)
Definition uncontrolledTick (t : Inputs * R) : Prop :=
  in_controllingCharacter (fst t) = None.

Definition controlledTick (t : Inputs * R) : Prop :=
  in_controllingCharacter (fst t) <> None.

(** ** Vocabulary of the statements about the forces of one step *)

(** Two worlds that agree on everything the hook reads except the two
    roll keys. *)
Definition same_but_roll {num : Type} (w1 w2 : World num) : Prop :=
  Body.velocity (body w1) = Body.velocity (body w2) /\
  Body.quaternion (body w1) = Body.quaternion (body w2) /\
  numWheelsOnGround (plane w1) = numWheelsOnGround (plane w2) /\
  enginePower (plane w1) = enginePower (plane w2) /\
  isPressed (throttle (actions (plane w1))) = isPressed (throttle (actions (plane w2))) /\
  isPressed (brake (actions (plane w1))) = isPressed (brake (actions (plane w2))) /\
  isPressed (pitchUp (actions (plane w1))) = isPressed (pitchUp (actions (plane w2))) /\
  isPressed (pitchDown (actions (plane w1))) = isPressed (pitchDown (actions (plane w2))) /\
  isPressed (yawLeft (actions (plane w1))) = isPressed (yawLeft (actions (plane w2))) /\
  isPressed (yawRight (actions (plane w1))) = isPressed (yawRight (actions (plane w2))).

(** ** Concrete situations on real numbers *)

Module IdealScenario.
Local Open Scope R_scope.

(** A freshly constructed airplane with two elevators, then given its
    inputs. *)
Definition airplane (a : Actions) (pilot : bool) (wheels : nat) : Airplane R :=
  setInputs
    {| in_actions := a;
       in_controllingCharacter := if pilot then Some (character 0) else None;
       in_numWheelsOnGround := wheels |}
    (constructed 2 wheels).

(** The airplane on a body in the reference orientation, moving with the
    given velocity and carrying no force yet. *)
Definition world (p : Airplane R) (v : Vec3.t R) : World R :=
  {| plane := p;
     body := {| Body.quaternion := Quaternion.new 0 0 0 1;
                Body.velocity := v;
                Body.forces := [] |} |}.

(** The action table with only the two roll keys set. *)
Definition rollKeys (l r : bool) : Actions :=
  let key (b : bool) := if b then Scenario.held else released in
  {| throttle := released; brake := released; wheelBrake := released;
     pitchUp := released; pitchDown := released;
     yawLeft := released; yawRight := released;
     rollLeft := key l; rollRight := key r;
     exitVehicle := released; seat_switch := released; view := released |}.

End IdealScenario.

(** The [k]-th force counted from the last one applied. *)
Definition fromEnd {A : Type} (k : nat) (l : list A) : option A :=
  nth_error (rev l) k.

(** ** readAirplaneData: binding the parts of the loaded asset *)

Module Scene.
Local Open Scope string_scope.

(** A value stored in [userData]: a string, or anything else (which is
    never [===] to a string). *)
Inductive JsValue : Type :=
| JsString (s : String.string)
| JsOther.

(** [v === s] for a string literal [s]. *)
Definition strictEq (v : JsValue) (s : String.string) : bool :=
  match v with
  | JsString t => String.eqb t s
  | JsOther => false
  end.

(** The [userData] of a node: its own properties [data] and [side], each
    present or not. *)
Record UserData : Type := {
  data : option JsValue;
  side : option JsValue
}.

(** A node of the scene, as the callback sees it: which node it is, and
    its own property [userData] if it has one. *)
Record Object3D : Type := {
  id : nat;
  userData : option UserData
}.

(** The part references of the airplane: [undefined] is [None]. *)
Record Parts : Type := {
  rotor : option Object3D;
  rudder : option Object3D;
  elevators : list Object3D;
  leftAileron : option Object3D;
  rightAileron : option Object3D
}.

(** The field initialisers of the class: only [elevators] has one. *)
Definition unbound : Parts :=
  {| rotor := None; rudder := None; elevators := [];
     leftAileron := None; rightAileron := None |}.

(** The callback given to [gltf.scene.traverse], on one node. *)
Definition bind (this : Parts) (child : Object3D) : Parts :=
  match userData child with
  | None => this
  | Some u =>
    match data u with
    | None => this
    | Some d =>
      let this1 :=
        if strictEq d "rotor"
        then {| rotor := Some child; rudder := rudder this;
                elevators := elevators this;
                leftAileron := leftAileron this; rightAileron := rightAileron this |}
        else this in
      let this2 :=
        if strictEq d "rudder"
        then {| rotor := rotor this1; rudder := Some child;
                elevators := elevators this1;
                leftAileron := leftAileron this1; rightAileron := rightAileron this1 |}
        else this1 in
      let this3 :=
        if strictEq d "elevator"
        then {| rotor := rotor this2; rudder := rudder this2;
                elevators := elevators this2 ++ [child];
                leftAileron := leftAileron this2; rightAileron := rightAileron this2 |}
        else this2 in
      if strictEq d "aileron"
      then match side u with
           | None => this3
           | Some s =>
             if strictEq s "left"
             then {| rotor := rotor this3; rudder := rudder this3;
                     elevators := elevators this3;
                     leftAileron := Some child; rightAileron := rightAileron this3 |}
             else if strictEq s "right"
             then {| rotor := rotor this3; rudder := rudder this3;
                     elevators := elevators this3;
                     leftAileron := leftAileron this3; rightAileron := Some child |}
             else this3
           end
      else this3
    end
  end.

(** [readAirplaneData(gltf)], given the nodes of the scene in the order
    in which [traverse] visits them. *)
Definition readAirplaneData (visited : list Object3D) (this : Parts) : Parts :=
  fold_left bind visited this.

(** The tag of a node: its [userData.data] when that is the given
    string; for an aileron, its side as well. *)
Definition tagged (tag : String.string) (child : Object3D) : bool :=
  match userData child with
  | Some u => match data u with Some d => strictEq d tag | None => false end
  | None => false
  end.

Definition aileronOn (s : String.string) (child : Object3D) : bool :=
  tagged "aileron" child &&
  match userData child with
  | Some u => match side u with Some v => strictEq v s | None => false end
  | None => false
  end.

(** The last element of a list that satisfies a test, or the default. *)
Definition lastOr {A : Type} (test : A -> bool) (l : list A) (default : option A) : option A :=
  fold_left (fun found x => if test x then Some x else found) l default.

(** A scene with two rotor nodes, two elevators, an aileron without a
    side, one aileron on each side and an untagged node. *)
Definition node (n : nat) (d : String.string) (s : option String.string) : Object3D :=
  {| id := n;
     userData := Some {| data := Some (JsString d);
                         side := option_map JsString s |} |}.

Definition sampleScene : list Object3D :=
  [ node 0 "rotor" None; node 1 "elevator" None; node 2 "aileron" None;
    node 3 "aileron" (Some "right"); {| id := 4; userData := None |};
    node 5 "rotor" None; node 6 "elevator" None; node 7 "aileron" (Some "left") ].

End Scene.

(** * Properties *)

#[local] Existing Instance Scenario.numbers.

(** ** The hook is a pure function of its inputs *)

Section Purity.
Context {num : Type} {N : JsNumber num}.
Variable Quaternion_inverse : Quaternion.t num -> Quaternion.t num.
Variable Quaternion_vmult : Quaternion.t num -> Vec3.t num -> Vec3.t num.


Lemma skipn_length_app (A : Type) (l r : list A) :
  skipn (List.length l) (l ++ r) = r.
Proof. induction l; simpl; auto. Qed.

Lemma added_extend (A : Type) (m : @Step num A) (w : World num) (l : list (Vec3.t num * Vec3.t num)) :
  snd (m w) = extend w l -> added m w = l.
Proof.
  intros H. unfold added. rewrite H. simpl. apply skipn_length_app.
Qed.

Lemma extend_nil (w : World num) : extend w [] = w.
Proof.
  destruct w as [p [q v f]]. unfold extend. simpl. now rewrite app_nil_r.
Qed.

Lemma extend_extend (w : World num) (l1 l2 : list (Vec3.t num * Vec3.t num)) :
  extend (extend w l1) l2 = extend w (l1 ++ l2).
Proof. unfold extend. simpl. now rewrite app_assoc. Qed.

Lemma same_inputs_extend (w1 w2 : World num) (l1 l2 : list (Vec3.t num * Vec3.t num)) :
  same_inputs w1 w2 -> same_inputs (extend w1 l1) (extend w2 l2).
Proof. unfold same_inputs. simpl. tauto. Qed.

(** How to establish [pure_step]: exhibit the result and the forces. *)
Lemma pure_step_intro (A : Type) (m : @Step num A)
    (a : World num -> A) (F : World num -> list (Vec3.t num * Vec3.t num)) :
  (forall w, m w = (a w, extend w (F w))) ->
  (forall w1 w2, same_inputs w1 w2 -> a w1 = a w2 /\ F w1 = F w2) ->
  pure_step (num:=num) m.
Proof.
  intros Hrun Hstable.
  assert (Hadd : forall w, added m w = F w).
  { intros w. apply added_extend. now rewrite Hrun. }
  split.
  - intros w. rewrite Hadd, Hrun. reflexivity.
  - intros w1 w2 Hin. rewrite !Hadd, !Hrun. simpl. auto.
Qed.

Lemma pure_ret (A : Type) (a : A) : pure_step (num:=num) (ret a).
Proof.
  apply (pure_step_intro A (ret (num:=num) a) (fun _ => a) (fun _ => [])).
  - intros w. unfold ret. now rewrite extend_nil.
  - auto.
Qed.

Lemma pure_ofBody_quaternion : pure_step (num:=num) (ofBody Body.quaternion).
Proof.
  apply (pure_step_intro _ _ (fun w => Body.quaternion (body w)) (fun _ => [])).
  - intros w. unfold ofBody. now rewrite extend_nil.
  - unfold same_inputs. intuition.
Qed.

Lemma pure_ofBody_velocity : pure_step (num:=num) (ofBody Body.velocity).
Proof.
  apply (pure_step_intro _ _ (fun w => Body.velocity (body w)) (fun _ => [])).
  - intros w. unfold ofBody. now rewrite extend_nil.
  - unfold same_inputs. intuition.
Qed.

Lemma pure_ofPlane_numWheelsOnGround : pure_step (num:=num) (ofPlane numWheelsOnGround).
Proof.
  apply (pure_step_intro _ _ (fun w => numWheelsOnGround (plane w)) (fun _ => [])).
  - intros w. unfold ofPlane. now rewrite extend_nil.
  - unfold same_inputs. intuition.
Qed.

Lemma pure_ofPlane_actions : pure_step (num:=num) (ofPlane actions).
Proof.
  apply (pure_step_intro _ _ (fun w => actions (plane w)) (fun _ => [])).
  - intros w. unfold ofPlane. now rewrite extend_nil.
  - unfold same_inputs. intuition.
Qed.

Lemma pure_ofPlane_enginePower : pure_step (num:=num) (ofPlane enginePower).
Proof.
  apply (pure_step_intro _ _ (fun w => enginePower (plane w)) (fun _ => [])).
  - intros w. unfold ofPlane. now rewrite extend_nil.
  - unfold same_inputs. intuition.
Qed.

Lemma pure_pressed (key : Actions -> KeyBinding) : pure_step (num:=num) (pressed key).
Proof.
  apply (pure_step_intro _ _
           (fun w => isPressed (key (actions (plane w)))) (fun _ => [])).
  - intros w. unfold pressed, ofPlane. now rewrite extend_nil.
  - unfold same_inputs. intros w1 w2 (_ & _ & Ha & _). now rewrite Ha.
Qed.

Lemma pure_applyLocalForce (force localPoint : Vec3.t num) :
  pure_step (num:=num) (applyLocalForce force localPoint).
Proof.
  apply (pure_step_intro _ _ (fun _ => tt) (fun _ => [(force, localPoint)])).
  - reflexivity.
  - auto.
Qed.

Lemma pure_when (c : bool) (m : @Step num unit) : pure_step (num:=num) m -> pure_step (num:=num) (when c m).
Proof. destruct c; simpl; auto using pure_ret. Qed.

Lemma pure_bind (A B : Type) (m : @Step num A) (k : A -> @Step num B) :
  pure_step (num:=num) m -> (forall a, pure_step (num:=num) (k a)) -> pure_step (num:=num) (bind m k).
Proof.
  intros [Hm Sm] Hk.
  apply (pure_step_intro _ _
           (fun w => fst (k (fst (m w)) (snd (m w))))
           (fun w => added m w ++ added (k (fst (m w))) (snd (m w)))).
  - intros w. unfold bind.
    destruct (m w) as [a w1] eqn:E. simpl.
    destruct (Hk a) as [Hka _].
    specialize (Hka w1). specialize (Hm w). rewrite E in Hm. simpl in Hm.
    rewrite <- extend_extend, <- Hm, <- Hka.
    now destruct (k a w1).
  - intros w1 w2 Hin.
    destruct (Sm w1 w2 Hin) as [Ea El].
    rewrite (Hm w1), (Hm w2), <- Ea, <- El.
    destruct (Hk (fst (m w1))) as [_ Sk].
    destruct (Sk (extend w1 (added m w1)) (extend w2 (added m w1))) as [Eb Ek].
    { now apply same_inputs_extend. }
    now rewrite Eb, Ek.
Qed.

Lemma pure_physicsPreStep :
  pure_step (num:=num) (physicsPreStep Quaternion_inverse Quaternion_vmult).
Proof.
  unfold physicsPreStep.
  repeat first
    [ apply pure_bind; [ | intros ? ]
    | apply pure_when
    | apply pure_applyLocalForce
    | apply pure_pressed
    | apply pure_ofBody_quaternion
    | apply pure_ofBody_velocity
    | apply pure_ofPlane_numWheelsOnGround
    | apply pure_ofPlane_actions
    | apply pure_ofPlane_enginePower ].
Qed.

(** C8: two invocations on worlds with the same body kinematics, the same
    control-action states, the same ground-contact wheel count and the same
    engine power apply the same forces at the same points, in the same
    order; and an invocation leaves every field of the airplane as it was,
    leaves the body's velocity and orientation as they were, and only
    appends its forces to those the body already carried. *)
Theorem physicsPreStep_pure :
  (forall w1 w2 : World num,
     Body.velocity (body w1) = Body.velocity (body w2) ->
     Body.quaternion (body w1) = Body.quaternion (body w2) ->
     actions (plane w1) = actions (plane w2) ->
     numWheelsOnGround (plane w1) = numWheelsOnGround (plane w2) ->
     enginePower (plane w1) = enginePower (plane w2) ->
     applied Quaternion_inverse Quaternion_vmult w1
     = applied Quaternion_inverse Quaternion_vmult w2) /\
  (forall w : World num,
     let w' := snd (physicsPreStep Quaternion_inverse Quaternion_vmult w) in
     plane w' = plane w /\
     Body.velocity (body w') = Body.velocity (body w) /\
     Body.quaternion (body w') = Body.quaternion (body w) /\
     Body.forces (body w')
     = Body.forces (body w) ++ applied Quaternion_inverse Quaternion_vmult w).
Proof.
  destruct pure_physicsPreStep as [Hframe Hstable]. split.
  - intros w1 w2 H1 H2 H3 H4 H5.
    apply (Hstable w1 w2). unfold same_inputs. auto.
  - intros w w'. subst w'. rewrite Hframe. unfold applied. simpl. auto.
Qed.

End Purity.

Lemma physicsPreStep_pure_witness :
  let p1 := Scenario.airplaneAtPower (Scenario.keys true true false true) 0 1%float in
  let p2 := update SampleSpring.simulate Scenario.frame p1 in
  let v := (Vec3.new 3 (-4) 40)%float in
  let w1 := Scenario.world p1 v in
  let w2 := {| plane := p2;
               body := Body.applyLocalForce (Scenario.bodyMoving v)
                         (Vec3.new 0 0 1)%float (Vec3.new 0 0 0)%float |} in
  applied Quaternion.inverse Quaternion.vmult w1
  = applied Quaternion.inverse Quaternion.vmult w2.
Proof.
  intros p1 p2 v w1 w2.
  apply (proj1 (physicsPreStep_pure Quaternion.inverse Quaternion.vmult) w1 w2);
    reflexivity.
Defined.

(** ** Control-surface targets *)

Section ControlTargets.
Context {num : Type} {N : JsNumber num}.
Variable simulate : num -> SpringSimulator.t num -> SpringSimulator.t num.

(** [simulate] advances position and velocity; the target is the
    caller's to set. *)
Hypothesis simulate_target :
  forall timeStep s,
    SpringSimulator.target (simulate timeStep s) = SpringSimulator.target s.

Lemma steeringTarget_tieBreak (a : Actions) (wheels : nat) :
  steeringTarget a wheels =
  if (0 <? wheels)%nat
  then tieBreak (isPressed (yawLeft a) || isPressed (rollLeft a))
                (isPressed (yawRight a) || isPressed (rollRight a)) (lit 0.8)
  else lit 0.
Proof.
  unfold steeringTarget, tieBreak.
  destruct (0 <? wheels)%nat; [ | reflexivity ].
  destruct (isPressed (yawLeft a)), (isPressed (rollLeft a)),
    (isPressed (yawRight a)), (isPressed (rollRight a)); reflexivity.
Qed.

Lemma aileronTarget_tieBreak (a : Actions) :
  aileronTarget a
  = tieBreak (isPressed (rollLeft a)) (isPressed (rollRight a)) partsRotationAmount.
Proof.
  unfold aileronTarget, tieBreak.
  destruct (isPressed (rollLeft a)), (isPressed (rollRight a)); reflexivity.
Qed.

Lemma elevatorTarget_tieBreak (a : Actions) :
  elevatorTarget a
  = tieBreak (isPressed (pitchUp a)) (isPressed (pitchDown a)) partsRotationAmount.
Proof.
  unfold elevatorTarget, tieBreak.
  destruct (isPressed (pitchUp a)), (isPressed (pitchDown a)); reflexivity.
Qed.

Lemma rudderTarget_tieBreak (a : Actions) :
  rudderTarget a
  = tieBreak (isPressed (yawLeft a)) (isPressed (yawRight a)) partsRotationAmount.
Proof.
  unfold rudderTarget, tieBreak.
  destruct (isPressed (yawLeft a)), (isPressed (yawRight a)); reflexivity.
Qed.

(** The targets the four simulators hold when [update] returns are the
    values it assigned. *)
Lemma update_targets (timeStep : num) (this : Airplane num) :
  let after := update simulate timeStep this in
  SpringSimulator.target (steeringSimulator after)
    = steeringTarget (actions this) (numWheelsOnGround this) /\
  SpringSimulator.target (aileronSimulator after) = aileronTarget (actions this) /\
  SpringSimulator.target (elevatorSimulator after) = elevatorTarget (actions this) /\
  SpringSimulator.target (rudderSimulator after) = rudderTarget (actions this).
Proof.
  unfold update. cbn [steeringSimulator aileronSimulator elevatorSimulator rudderSimulator].
  rewrite !simulate_target. unfold SpringSimulator.setTarget. simpl. auto.
Qed.

(** C3 (amended): on every update tick the aileron, elevator and rudder
    targets follow the tie-break rule on their pair of actions (roll
    left/right, pitch up/down, yaw left/right) with magnitude 0.7; the
    steering target follows it, with magnitude 0.8 and the pair "yaw or roll
    left" against "yaw or roll right", on the ticks where a wheel is on the
    ground, and is 0 on the others. *)
Theorem control_targets_tie_break (timeStep : num) (this : Airplane num) :
  let a := actions this in
  let after := update simulate timeStep this in
  SpringSimulator.target (aileronSimulator after)
    = tieBreak (isPressed (rollLeft a)) (isPressed (rollRight a)) (lit 0.7) /\
  SpringSimulator.target (elevatorSimulator after)
    = tieBreak (isPressed (pitchUp a)) (isPressed (pitchDown a)) (lit 0.7) /\
  SpringSimulator.target (rudderSimulator after)
    = tieBreak (isPressed (yawLeft a)) (isPressed (yawRight a)) (lit 0.7) /\
  SpringSimulator.target (steeringSimulator after)
    = if (0 <? numWheelsOnGround this)%nat
      then tieBreak (isPressed (yawLeft a) || isPressed (rollLeft a))
                    (isPressed (yawRight a) || isPressed (rollRight a)) (lit 0.8)
      else lit 0.
Proof.
  intros a after. destruct (update_targets timeStep this) as (Hs & Ha & He & Hr).
  subst after a. rewrite Hs, Ha, He, Hr.
  rewrite steeringTarget_tieBreak, aileronTarget_tieBreak,
    elevatorTarget_tieBreak, rudderTarget_tieBreak.
  unfold partsRotationAmount. auto.
Qed.

End ControlTargets.

(** C7: on a tick with no wheel on the ground the steering target is 0
    whatever is pressed; on that same tick, with yawLeft pressed and
    yawRight not, the rudder target is the deflection magnitude, which is
    0.7 and not 0, in binary64 as in real arithmetic. *)
Theorem airborne_steering_neutral :
  (forall (num : Type) (N : JsNumber num)
          (simulate : num -> SpringSimulator.t num -> SpringSimulator.t num),
     (forall timeStep s,
        SpringSimulator.target (simulate timeStep s) = SpringSimulator.target s) ->
     forall (timeStep : num) (this : Airplane num),
       numWheelsOnGround this = 0%nat ->
       SpringSimulator.target (steeringSimulator (update simulate timeStep this)) = lit 0 /\
       (isPressed (yawLeft (actions this)) = true ->
        isPressed (yawRight (actions this)) = false ->
        SpringSimulator.target (rudderSimulator (update simulate timeStep this))
        = partsRotationAmount)) /\
  (forall M : MathLib,
     @partsRotationAmount float (IEEE M) = 0.7%float /\
     js_eq (@partsRotationAmount float (IEEE M)) (@lit float (IEEE M) 0) = false) /\
  (@partsRotationAmount R Ideal = 0.7%R /\ @partsRotationAmount R Ideal <> @lit R Ideal 0).
Proof.
  split; [ | split ].
  - intros num N simulate Hsim timeStep this Hair.
    destruct (update_targets simulate Hsim timeStep this) as (Hs & _ & _ & Hr).
    cbv zeta in Hs, Hr. rewrite Hs, Hr. split.
    + unfold steeringTarget. now rewrite Hair.
    + intros Hl Hrt. unfold rudderTarget. now rewrite Hl, Hrt.
  - intros M. split; vm_compute; reflexivity.
  - unfold partsRotationAmount. cbn [lit Ideal]. unfold Q2R. cbn [Qnum Qden].
    split; lra.
Qed.

Lemma airborne_steering_neutral_witness :
  let this := Scenario.airplane (Scenario.keys false false true false) true 0 in
  let after := update SampleSpring.simulate Scenario.frame this in
  SpringSimulator.target (steeringSimulator after) = 0%float /\
  SpringSimulator.target (rudderSimulator after) = 0.7%float.
Proof.
  intros this after.
  destruct (proj1 airborne_steering_neutral float Scenario.numbers
              SampleSpring.simulate (fun _ _ => eq_refl) Scenario.frame this eq_refl)
    as [Hs Hr].
  split.
  - exact Hs.
  - exact (Hr eq_refl eq_refl).
Defined.

(** C3, as stated, fails for the steering axis: airborne, with yawLeft
    the only key pressed, exactly one action of the pair is pressed and the
    rule asks for the magnitude 0.8, but the target assigned is 0. *)
Lemma steering_target_airborne_counterexample :
  let this := Scenario.airplane (Scenario.keys false false true false) true 0 in
  let a := actions this in
  let after := update SampleSpring.simulate Scenario.frame this in
  xorb (isPressed (yawLeft a)) (isPressed (yawRight a)) = true /\
  xorb (isPressed (yawLeft a) || isPressed (rollLeft a))
       (isPressed (yawRight a) || isPressed (rollRight a)) = true /\
  tieBreak (isPressed (yawLeft a)) (isPressed (yawRight a)) (lit 0.8) = 0.8%float /\
  SpringSimulator.target (steeringSimulator after) = 0%float /\
  SpringSimulator.target (steeringSimulator after)
  <> tieBreak (isPressed (yawLeft a)) (isPressed (yawRight a)) (lit 0.8).
Proof.
  intros this a after. repeat split; try (vm_compute; reflexivity).
  intros H. apply (f_equal (fun x => js_eq x 0%float)) in H.
  vm_compute in H. discriminate H.
Qed.

Lemma control_targets_tie_break_witness :
  let this := Scenario.airplane (Scenario.keys false true true true) true 3 in
  let after := update SampleSpring.simulate Scenario.frame this in
  SpringSimulator.target (aileronSimulator after) = 0.7%float /\
  SpringSimulator.target (elevatorSimulator after) = 0.7%float /\
  SpringSimulator.target (rudderSimulator after) = 0.7%float /\
  SpringSimulator.target (steeringSimulator after) = 0.8%float.
Proof.
  intros this after.
  exact (control_targets_tie_break (N := Scenario.numbers) SampleSpring.simulate
           (fun _ _ => eq_refl) Scenario.frame this).
Defined.

(** ** Order on binary64 numbers *)

(** Case analysis on the exponent [e] and the mantissa [m] of a finite
    binary64 number compared with constants: every comparison is turned
    to have the variable on the left, then split. *)
Ltac order_cases m e :=
  change (Pos.compare_cont Eq) with Pos.compare;
  repeat match goal with
  | |- context [Z.compare ?c e] => rewrite (Z.compare_antisym e c)
  | |- context [Pos.compare ?c m] => rewrite (Pos.compare_antisym m c)
  end;
  repeat match goal with
  | |- context [Z.compare e ?c] =>
      destruct (Z.compare_spec e c); try (exfalso; lia)
  end;
  repeat match goal with
  | |- context [Pos.compare m ?c] => destruct (Pos.compare_spec m c)
  end;
  cbn [CompOpp andb negb]; intros; try discriminate;
  try match goal with |- ?x = ?x => reflexivity end.

Section Binary64Order.
Local Open Scope float_scope.

Lemma lit_0 : float_of_Q 0 = 0. Proof. vm_compute. reflexivity. Qed.
Lemma lit_035 : float_of_Q 0.35 = 0.35. Proof. vm_compute. reflexivity. Qed.
Lemma lit_07 : float_of_Q 0.7 = 0.7. Proof. vm_compute. reflexivity. Qed.
Lemma Prim2SF_035 : Prim2SF 0.35 = S754_finite false 6305039478318694 (-54).
Proof. vm_compute. reflexivity. Qed.
Lemma Prim2SF_07 : Prim2SF 0.7 = S754_finite false 6305039478318694 (-53).
Proof. vm_compute. reflexivity. Qed.

Lemma deep_stall_comparisons (a : float) :
  PrimFloat.leb 0.7 (PrimFloat.abs a) = true ->
  PrimFloat.ltb (PrimFloat.abs a) 0.35 = false /\
  PrimFloat.leb a (PrimFloat.opp 0.35) && PrimFloat.ltb (PrimFloat.opp 0.7) a = false /\
  PrimFloat.leb 0.35 a && PrimFloat.ltb a 0.7 = false.
Proof.
  rewrite ?ltb_spec, ?leb_spec, ?abs_spec, ?opp_spec.
  rewrite ?Prim2SF_035, ?Prim2SF_07.
  generalize 6305039478318694%positive. intros c.
  destruct (Prim2SF a) as [s|s| |s m e]; cbn [SFabs SFopp];
    unfold SFltb, SFleb, SFcompare; try destruct s; cbn [negb andb];
    try discriminate; auto.
  all: order_cases m e; repeat split; try reflexivity; try discriminate.
Qed.

Lemma liftCoef_deep_stall_binary64 (M : MathLib) (a : float) :
  PrimFloat.leb 0.7 (PrimFloat.abs a) = true -> @liftCoef float (IEEE M) a = 0.
Proof.
  intros H. destruct (deep_stall_comparisons a H) as (H1 & H2 & H3).
  unfold liftCoef, alphaMax.
  cbn [lessThan lessEq unaryMinus lit multiply add subtract divide Math_abs IEEE].
  rewrite lit_0, lit_035, lit_07, H1, H2, H3. reflexivity.
Qed.
End Binary64Order.

(** ** The formulas in real arithmetic *)

(** Reads the operations at [Ideal]. *)
Ltac ideal_simpl :=
  cbn [lessThan lessEq unaryMinus lit multiply add subtract divide
       Math_abs Math_sqrt Math_asin Math_cos Math_sin Math_pow Math_E Math_PI
       Ideal] in *;
  unfold Q2R in *; cbn [Qnum Qden] in *.

(** Then splits every comparison and every absolute value. *)
Ltac ideal_cases :=
  ideal_simpl; unfold Rabs in *;
  repeat match goal with
  | |- context [Rcase_abs ?a] => destruct (Rcase_abs a)
  | H : context [Rcase_abs ?a] |- _ => destruct (Rcase_abs a)
  | |- context [Rlt_dec ?a ?b] => destruct (Rlt_dec a b)
  | |- context [Rle_dec ?a ?b] => destruct (Rle_dec a b)
  | H : context [Rlt_dec ?a ?b] |- _ => destruct (Rlt_dec a b)
  | H : context [Rle_dec ?a ?b] |- _ => destruct (Rle_dec a b)
  end; cbn [andb orb negb] in *; try lra.

Section IdealArithmetic.
Local Open Scope R_scope.

Lemma lessThan_Ideal (a b : R) : lessThan a b = true <-> a < b.
Proof. simpl. destruct (Rlt_dec a b); split; intros; try lra; congruence. Qed.

Lemma lessEq_Ideal (a b : R) : lessEq a b = true <-> a <= b.
Proof. simpl. destruct (Rle_dec a b); split; intros; try lra; congruence. Qed.

Lemma liftCoef_linear (a : R) : Rabs a < 0.35 -> liftCoef a = 4.3 * a.
Proof. intros H. unfold liftCoef, alphaMax. ideal_cases. Qed.

Lemma liftCoef_stall_pos (a : R) :
  0.35 <= a < 0.7 -> liftCoef a = - 4.3 * a + 3.1.
Proof. intros H. unfold liftCoef, alphaMax. ideal_cases. Qed.

Lemma liftCoef_stall_neg (a : R) :
  - 0.7 < a <= - 0.35 -> liftCoef a = - 4.3 * a - 3.1.
Proof. intros H. unfold liftCoef, alphaMax. ideal_cases. Qed.

Lemma liftCoef_deep_stall (a : R) : 0.7 <= Rabs a -> liftCoef a = 0.
Proof. intros H. unfold liftCoef, alphaMax. ideal_cases. Qed.

Lemma liftCoef_not_continuous_at (x0 : R) :
  (forall d, 0 < d -> exists a, a <> x0 /\ Rabs (a - x0) < d /\ 0.04 <= Rabs (liftCoef a - liftCoef x0)) ->
  ~ continuity_pt liftCoef x0.
Proof.
  intros Hfar Hc.
  destruct (Hc 0.04 ltac:(lra)) as (d & Hd & Hnear).
  destruct (Hfar d Hd) as (a & Hne & Hclose & Hjump).
  specialize (Hnear a). simpl in Hnear. unfold R_dist, D_x, no_cond in Hnear.
  assert (Rabs (liftCoef a - liftCoef x0) < 0.04) by (apply Hnear; auto).
  lra.
Qed.

(** C10: the lift coefficient jumps at the stall angle.  At alpha = 0.35
    the stall branch gives -4.3 * 0.35 + 3.1 = 1.595, while below 0.35 the
    linear branch 4.3 * alpha tends to 1.505: a jump of 0.09.  At
    alpha = -0.35 the value is -1.595 and the limit from above is -1.505.
    The function is continuous at neither point. *)
Theorem liftCoef_jump_at_stall :
  liftCoef 0.35 = 1.595 /\
  liftCoef (- 0.35) = - 1.595 /\
  4.3 * 0.35 = 1.505 /\
  - 4.3 * 0.35 + 3.1 = 1.595 /\
  (forall eps, 0 < eps -> exists d, 0 < d /\
     forall a, 0.35 - d < a < 0.35 -> Rabs (liftCoef a - 1.505) < eps) /\
  (forall eps, 0 < eps -> exists d, 0 < d /\
     forall a, - 0.35 < a < - 0.35 + d -> Rabs (liftCoef a - - 1.505) < eps) /\
  liftCoef 0.35 - 1.505 = 0.09 /\
  ~ continuity_pt liftCoef 0.35 /\
  ~ continuity_pt liftCoef (- 0.35).
Proof.
  assert (Hp : liftCoef 0.35 = 1.595) by (rewrite liftCoef_stall_pos; lra).
  assert (Hn : liftCoef (- 0.35) = - 1.595) by (rewrite liftCoef_stall_neg; lra).
  repeat split; try lra.
  - intros eps Heps. exists (Rmin 0.5 (eps / 5)). split.
    + apply Rmin_glb_lt; lra.
    + intros a [Hlo Hhi].
      assert (Rmin 0.5 (eps / 5) <= 0.5) by apply Rmin_l.
      assert (Rmin 0.5 (eps / 5) <= eps / 5) by apply Rmin_r.
      rewrite liftCoef_linear by (apply Rabs_def1; lra).
      apply Rabs_def1; lra.
  - intros eps Heps. exists (Rmin 0.5 (eps / 5)). split.
    + apply Rmin_glb_lt; lra.
    + intros a [Hlo Hhi].
      assert (Rmin 0.5 (eps / 5) <= 0.5) by apply Rmin_l.
      assert (Rmin 0.5 (eps / 5) <= eps / 5) by apply Rmin_r.
      rewrite liftCoef_linear by (apply Rabs_def1; lra).
      apply Rabs_def1; lra.
  - apply (liftCoef_not_continuous_at 0.35). intros d Hd.
    exists (0.35 - Rmin 0.1 (d / 2)).
    assert (0 < Rmin 0.1 (d / 2)) by (apply Rmin_glb_lt; lra).
    assert (Rmin 0.1 (d / 2) <= 0.1) by apply Rmin_l.
    assert (Rmin 0.1 (d / 2) <= d / 2) by apply Rmin_r.
    rewrite Hp, liftCoef_linear by (apply Rabs_def1; lra).
    repeat split; try lra.
    + rewrite Rabs_left; lra.
    + rewrite Rabs_left; lra.
  - apply (liftCoef_not_continuous_at (- 0.35)). intros d Hd.
    exists (- 0.35 + Rmin 0.1 (d / 2)).
    assert (0 < Rmin 0.1 (d / 2)) by (apply Rmin_glb_lt; lra).
    assert (Rmin 0.1 (d / 2) <= 0.1) by apply Rmin_l.
    assert (Rmin 0.1 (d / 2) <= d / 2) by apply Rmin_r.
    rewrite Hn, liftCoef_linear by (apply Rabs_def1; lra).
    repeat split; try lra.
    + rewrite Rabs_right; lra.
    + rewrite Rabs_right; lra.
Qed.

Lemma liftCoef_jump_at_stall_witness :
  exists d, 0 < d /\
    forall a, 0.35 - d < a < 0.35 -> Rabs (liftCoef a - 1.505) < 1.
Proof.
  destruct liftCoef_jump_at_stall as (_ & _ & _ & _ & Hleft & _).
  apply (Hleft 1). lra.
Defined.

(** C9: beyond the deep-stall bound, |alpha| >= 0.7, the angle-dependent
    lift coefficient is 0, in binary64 arithmetic as in real arithmetic;
    the lift it scales is then 0 and the baseline coefficient cL0 = 0.5 is
    the only lift left. *)
Theorem deep_stall_lift_vanishes :
  (forall (M : MathLib) (a : float),
     PrimFloat.leb 0.7 (PrimFloat.abs a) = true ->
     @liftCoef float (IEEE M) a = 0%float) /\
  (forall a : R, 0.7 <= Rabs a ->
     liftCoef a = 0 /\
     forall q : R, multiply (multiply (liftCoef a) q) wingS = 0) /\
  @cL0 R Ideal = 0.5.
Proof.
  split; [ | split ].
  - apply liftCoef_deep_stall_binary64.
  - intros a Ha. rewrite (liftCoef_deep_stall a Ha). split; [ reflexivity | ].
    intros q. ideal_simpl. lra.
  - unfold cL0. ideal_simpl. lra.
Qed.

Lemma deep_stall_lift_vanishes_witness :
  @liftCoef float Scenario.numbers 0.8%float = 0%float /\ @liftCoef R Ideal 1 = 0.
Proof.
  destruct deep_stall_lift_vanishes as (Hb & Hr & _). split.
  - apply (Hb SampleMath.lib). reflexivity.
  - apply (Hr 1). rewrite Rabs_R1. lra.
Defined.

End IdealArithmetic.

(** ** Engine power *)

Section EnginePower.
Local Open Scope R_scope.
Variable simulate : R -> SpringSimulator.t R -> SpringSimulator.t R.

Lemma enginePowerStep_controlled (dt p : R) :
  0 <= dt -> p <= 1 -> enginePowerStep true dt p = Rmin 1 (p + 0.4 * dt).
Proof.
  intros Hdt Hp. unfold enginePowerStep, Rmin.
  destruct (Rle_dec 1 (p + 0.4 * dt)); ideal_cases.
Qed.

Lemma enginePowerStep_uncontrolled (dt p : R) :
  0 <= dt -> 0 <= p -> enginePowerStep false dt p = Rmax 0 (p - 0.12 * dt).
Proof.
  intros Hdt Hp. unfold enginePowerStep, Rmax.
  destruct (Rle_dec 0 (p - 0.12 * dt)); ideal_cases.
Qed.

Lemma enginePower_tick (this : Airplane R) (t : Inputs * R) :
  enginePower (tick simulate this t)
  = enginePowerStep
      (match in_controllingCharacter (fst t) with Some _ => true | None => false end)
      (snd t) (enginePower this).
Proof. reflexivity. Qed.

Lemma enginePower_tick_range (this : Airplane R) (t : Inputs * R) :
  0 <= snd t -> 0 <= enginePower this <= 1 ->
  0 <= enginePower (tick simulate this t) <= 1.
Proof.
  intros Hdt Hp. rewrite enginePower_tick.
  destruct (in_controllingCharacter (fst t)).
  - rewrite enginePowerStep_controlled by lra. unfold Rmin.
    destruct (Rle_dec 1 (enginePower this + 0.4 * snd t)); lra.
  - rewrite enginePowerStep_uncontrolled by lra. unfold Rmax.
    destruct (Rle_dec 0 (enginePower this - 0.12 * snd t)); lra.
Qed.

Lemma enginePower_trace_range (ticks : list (Inputs * R)) :
  forall this : Airplane R,
    0 <= enginePower this <= 1 ->
    Forall (fun t => 0 <= snd t) ticks ->
    Forall (fun p => 0 <= enginePower p <= 1) (trace simulate ticks this).
Proof.
  induction ticks as [ | t rest IH ]; intros this Hp Hdt; simpl.
  - constructor.
  - inversion Hdt as [ | ? ? Ht Hrest ]; subst.
    assert (Hnext := enginePower_tick_range this t Ht Hp).
    constructor; auto.
Qed.

Lemma elapsed_nonneg (ticks : list (Inputs * R)) :
  Forall (fun t => 0 <= snd t) ticks -> 0 <= elapsed ticks.
Proof.
  induction 1; simpl; lra.
Qed.

Lemma enginePower_run_uncontrolled (ticks : list (Inputs * R)) :
  forall this : Airplane R,
    0 <= enginePower this ->
    Forall (fun t => 0 <= snd t) ticks ->
    Forall uncontrolledTick ticks ->
    enginePower (run simulate ticks this)
    = Rmax 0 (enginePower this - 0.12 * elapsed ticks).
Proof.
  unfold run.
  induction ticks as [ | t rest IH ]; intros this Hp Hdt Hun;
    cbn [fold_left]; [ unfold elapsed | change (elapsed (t :: rest)) with (snd t + elapsed rest) ].
  - cbn [fold_right]. rewrite Rmax_right; lra.
  - inversion Hdt as [ | ? ? Ht Hrest ]; subst.
    inversion Hun as [ | ? ? Hu Hurest ]; subst.
    assert (Hstep : enginePower (tick simulate this t)
                    = Rmax 0 (enginePower this - 0.12 * snd t)).
    { rewrite enginePower_tick. unfold uncontrolledTick in Hu. rewrite Hu.
      now apply enginePowerStep_uncontrolled. }
    assert (Hrest_nonneg := elapsed_nonneg rest Hrest).
    rewrite IH; auto.
    + rewrite Hstep. unfold Rmax. ideal_cases.
    + rewrite Hstep. apply Rmax_l.
Qed.

Lemma enginePower_run_controlled (ticks : list (Inputs * R)) :
  forall this : Airplane R,
    enginePower this <= 1 ->
    Forall (fun t => 0 <= snd t) ticks ->
    Forall controlledTick ticks ->
    enginePower (run simulate ticks this)
    = Rmin 1 (enginePower this + 0.4 * elapsed ticks).
Proof.
  unfold run.
  induction ticks as [ | t rest IH ]; intros this Hp Hdt Hc;
    cbn [fold_left]; [ unfold elapsed | change (elapsed (t :: rest)) with (snd t + elapsed rest) ].
  - cbn [fold_right]. rewrite Rmin_right; lra.
  - inversion Hdt as [ | ? ? Ht Hrest ]; subst.
    inversion Hc as [ | ? ? Hu Hurest ]; subst.
    assert (Hstep : enginePower (tick simulate this t)
                    = Rmin 1 (enginePower this + 0.4 * snd t)).
    { rewrite enginePower_tick. unfold controlledTick in Hu.
      destruct (in_controllingCharacter (fst t)); [ | congruence ].
      now apply enginePowerStep_controlled. }
    assert (Hrest_nonneg := elapsed_nonneg rest Hrest).
    rewrite IH; auto.
    + rewrite Hstep. unfold Rmin. ideal_cases.
    + rewrite Hstep. apply Rmin_l.
Qed.

(** C5: along any sequence of update ticks with time steps that are not
    negative, started with the engine power in [0,1]:  the power stays in
    [0,1] after every tick; a tick with a character in control raises it by
    0.4 * timeStep, capped at 1; a tick with nobody in control lowers it by
    0.12 * timeStep, floored at 0; and started at 1 with nobody in control,
    after ticks covering the time T it is max(0, 1 - 0.12 * T): positive as
    long as T < 1 / 0.12, and 0 from T = 1 / 0.12 = 8.33... seconds on. *)
Theorem engine_power_ramp (this : Airplane R) (ticks : list (Inputs * R)) :
  0 <= enginePower this <= 1 ->
  Forall (fun t => 0 <= snd t) ticks ->
  Forall (fun p => 0 <= enginePower p <= 1) (trace simulate ticks this) /\
  (forall (p : Airplane R) (i : Inputs) (dt : R),
     0 <= enginePower p <= 1 -> 0 <= dt ->
     enginePower (tick simulate p (i, dt))
     = match in_controllingCharacter i with
       | Some _ => Rmin 1 (enginePower p + 0.4 * dt)
       | None => Rmax 0 (enginePower p - 0.12 * dt)
       end) /\
  (enginePower this = 1 -> Forall uncontrolledTick ticks ->
     enginePower (run simulate ticks this) = Rmax 0 (1 - 0.12 * elapsed ticks) /\
     (elapsed ticks < 1 / 0.12 -> 0 < enginePower (run simulate ticks this)) /\
     (1 / 0.12 <= elapsed ticks -> enginePower (run simulate ticks this) = 0)).
Proof.
  intros Hp Hdt. split; [ | split ].
  - now apply enginePower_trace_range.
  - intros p i dt Hpr Hd. rewrite enginePower_tick. simpl.
    destruct (in_controllingCharacter i).
    + apply enginePowerStep_controlled; lra.
    + apply enginePowerStep_uncontrolled; lra.
  - intros Hone Hun.
    rewrite (enginePower_run_uncontrolled ticks this) by (auto; lra).
    rewrite Hone. split; [ reflexivity | ]. split; intros HT.
    + unfold Rmax. destruct (Rle_dec 0 (1 - 0.12 * elapsed ticks)); lra.
    + unfold Rmax. destruct (Rle_dec 0 (1 - 0.12 * elapsed ticks)); lra.
Qed.

End EnginePower.

Lemma engine_power_ramp_witness :
  let this := setEnginePower 1%R (constructed 2 3) in
  let idle := {| in_actions := actions this;
                 in_controllingCharacter := None;
                 in_numWheelsOnGround := 3 |} in
  let ticks := [(idle, 5%R); (idle, 5%R)] in
  Forall (fun p => (0 <= enginePower p <= 1)%R) (trace SampleSpring.simulate ticks this) /\
  enginePower (run SampleSpring.simulate ticks this) = 0%R.
Proof.
  intros this idle ticks.
  assert (Hrange : (0 <= enginePower this <= 1)%R) by (simpl; lra).
  assert (Hsteps : Forall (fun t : Inputs * R => (0 <= snd t)%R) ticks)
    by (repeat constructor; simpl; lra).
  destruct (engine_power_ramp SampleSpring.simulate this ticks Hrange Hsteps)
    as (Htrace & _ & Hdecay).
  split; [ exact Htrace | ].
  destruct (Hdecay eq_refl) as (_ & _ & Hzero).
  - repeat constructor.
  - apply Hzero. unfold elapsed, ticks. simpl. lra.
Defined.

(** ** Sideslip and angle of attack *)

Section Angles.
Context {num : Type} {N : JsNumber num}.

(** Unless the speed is above the threshold, both angles are the literal 0. *)
Lemma angles_zero_unless_fast (v : Vec3.t num) :
  lessThan (lit 0.5) (Vec3.length v) = false ->
  beta v = lit 0 /\ alpha v = lit 0.
Proof.
  intros H. unfold beta, alpha. rewrite H. auto.
Qed.

(** Above the threshold, [Math.asin] receives the two quotients as they
    are. *)
Lemma angles_when_fast (v : Vec3.t num) :
  lessThan (lit 0.5) (Vec3.length v) = true ->
  beta v = Math_asin (divide (Vec3.x v) (Vec3.length v)) /\
  alpha v = unaryMinus (Math_asin
              (divide (Vec3.y v)
                 (multiply (Vec3.length v) (Math_cos (beta v))))).
Proof.
  intros H. unfold alpha, alphaArg. unfold beta at 1. unfold betaArg. rewrite H. auto.
Qed.

End Angles.

Section AnglesBinary64.
Local Open Scope float_scope.

Lemma lit_05 : float_of_Q 0.5 = 0.5. Proof. vm_compute. reflexivity. Qed.
Lemma Prim2SF_05 : Prim2SF 0.5 = S754_finite false 4503599627370496 (-53).
Proof. vm_compute. reflexivity. Qed.

Lemma below_half_not_above (x : float) :
  PrimFloat.ltb x 0.5 = true -> PrimFloat.ltb 0.5 x = false.
Proof.
  rewrite !ltb_spec, Prim2SF_05.
  generalize 4503599627370496%positive. intros c.
  destruct (Prim2SF x) as [s|s| |s m e];
    unfold SFltb, SFcompare; try destruct s; try discriminate; auto.
  order_cases m e.
Qed.

(** C6: below the 0.5 threshold the sideslip and the angle of attack
    are the number 0, whatever the direction of the velocity, the zero
    vector included: no inverse sine and no division is evaluated, so no
    not-a-number value can come out.  On binary64 numbers the same holds
    whenever the speed is not above the threshold, a not-a-number speed
    included. *)
Theorem slow_flight_angles_zero :
  (forall (M : MathLib) (v : Vec3.t float),
     PrimFloat.ltb (@Vec3.length float (IEEE M) v) 0.5 = true ->
     @beta float (IEEE M) v = 0 /\ @alpha float (IEEE M) v = 0) /\
  (forall (M : MathLib) (v : Vec3.t float),
     PrimFloat.ltb 0.5 (@Vec3.length float (IEEE M) v) = false ->
     @beta float (IEEE M) v = 0 /\ @alpha float (IEEE M) v = 0) /\
  (forall M : MathLib,
     @beta float (IEEE M) (Vec3.new 0 0 0) = 0 /\
     @alpha float (IEEE M) (Vec3.new 0 0 0) = 0) /\
  js_eq 0 0 = true /\
  (forall v : Vec3.t R,
     (Vec3.length v < 0.5)%R -> beta v = 0%R /\ alpha v = 0%R).
Proof.
  assert (Hnot : forall (M : MathLib) (v : Vec3.t float),
            PrimFloat.ltb 0.5 (@Vec3.length float (IEEE M) v) = false ->
            @beta float (IEEE M) v = 0 /\ @alpha float (IEEE M) v = 0).
  { intros M v H. rewrite <- lit_0.
    apply (angles_zero_unless_fast (N := IEEE M)).
    cbn [lessThan lit IEEE]. now rewrite lit_05. }
  split; [ | split; [ | split; [ | split ] ] ].
  - intros M v H. apply Hnot. now apply below_half_not_above.
  - exact Hnot.
  - intros M. apply Hnot. vm_compute. reflexivity.
  - reflexivity.
  - intros v H.
    destruct (angles_zero_unless_fast (N := Ideal) v) as [Hb Ha].
    + ideal_cases.
    + rewrite Hb, Ha. ideal_simpl. lra.
Qed.

Lemma slow_flight_angles_zero_witness :
  beta (Vec3.new 0.3 (-0.2) 0.1) = 0 /\ alpha (Vec3.new 0.3 (-0.2) 0.1) = 0.
Proof.
  apply (proj1 slow_flight_angles_zero SampleMath.lib). reflexivity.
Defined.

(** C2, as stated, fails: nothing clamps the quotients.  With the
    body-local velocity (1, 1e-9, 0) the speed is 1, the sideslip is
    asin(1) = 1.5707963267948966, its cosine is 6.123233995736766e-17, and
    the quotient handed to asin for the angle of attack is
    1e-9 / 6.123233995736766e-17 = 16331239.35..., outside [-1, 1]; the
    angle of attack is not a number. *)
Lemma asin_argument_counterexample :
  let v := Vec3.new 1 1e-9 0 in
  PrimFloat.ltb 0.5 (Vec3.length v) = true /\
  beta v = 1.5707963267948966 /\
  Math_cos (beta v) = 6.123233995736766e-17 /\
  alphaArg v = 16331239.353195371 /\
  in_asin_domain (alphaArg v) = false /\
  js_eq (alpha v) (alpha v) = false.
Proof. vm_compute. repeat split; reflexivity. Qed.

End AnglesBinary64.

Section AnglesIdeal.
Local Open Scope R_scope.

Lemma length_Ideal (v : Vec3.t R) :
  Vec3.length v = sqrt (Vec3.x v * Vec3.x v + Vec3.y v * Vec3.y v + Vec3.z v * Vec3.z v).
Proof. reflexivity. Qed.

Lemma length_sqr (v : Vec3.t R) :
  Vec3.length v * Vec3.length v
  = Vec3.x v * Vec3.x v + Vec3.y v * Vec3.y v + Vec3.z v * Vec3.z v.
Proof.
  rewrite length_Ideal. apply sqrt_sqrt. nra.
Qed.

Lemma betaArg_range (v : Vec3.t R) :
  0 < Vec3.length v -> -1 <= betaArg v <= 1.
Proof.
  intros Hs. unfold betaArg. ideal_simpl.
  assert (Hsq := length_sqr v).
  set (s := Vec3.length v) in *. set (x := Vec3.x v) in *.
  assert (Hx : - s <= x <= s) by (split; nra).
  split.
  - apply Rmult_le_reg_r with s; [ lra | ].
    unfold Rdiv. rewrite Rmult_assoc, Rinv_l by lra. lra.
  - apply Rmult_le_reg_r with s; [ lra | ].
    unfold Rdiv. rewrite Rmult_assoc, Rinv_l by lra. lra.
Qed.

Lemma alphaArg_range (v : Vec3.t R) :
  0.5 < Vec3.length v -> Vec3.y v <> 0 \/ Vec3.z v <> 0 ->
  -1 <= alphaArg v <= 1.
Proof.
  intros Hs Hyz.
  assert (Hb := betaArg_range v ltac:(lra)).
  unfold alphaArg, beta.
  destruct (lessThan_Ideal (lit 0.5) (Vec3.length v)) as [_ Hfast].
  rewrite Hfast by (ideal_simpl; lra).
  ideal_simpl. rewrite (cos_asin _ Hb).
  assert (Hsq := length_sqr v).
  unfold betaArg in *. ideal_simpl.
  set (s := Vec3.length v) in *. set (x := Vec3.x v) in *.
  set (y := Vec3.y v) in *. set (z := Vec3.z v) in *.
  set (c := sqrt (1 - (x / s)²)).
  assert (Hc0 : 0 <= c) by apply sqrt_pos.
  assert (Hc2 : c * c = 1 - (x / s)²).
  { apply sqrt_sqrt. unfold Rsqr. nra. }
  assert (Hxs : x / s * s = x) by (field; lra).
  assert (HD2 : (s * c) * (s * c) = y * y + z * z).
  { replace (s * c * (s * c)) with (s * s * (c * c)) by ring.
    rewrite Hc2. unfold Rsqr.
    replace (s * s * (1 - x / s * (x / s))) with (s * s - (x / s * s) * (x / s * s)) by ring.
    rewrite Hxs. lra. }
  assert (Hpos : 0 < y * y + z * z).
  { destruct Hyz as [H | H]; nra. }
  assert (HD0 : 0 <= s * c) by (apply Rmult_le_pos; lra).
  assert (HD : 0 < s * c).
  { destruct HD0 as [H | H]; [ exact H | ]. rewrite <- H in HD2. lra. }
  assert (Hy : - (s * c) <= y <= s * c).
  { set (D := s * c) in *. split; nra. }
  split.
  - apply Rmult_le_reg_r with (s * c); [ lra | ].
    unfold Rdiv. rewrite Rmult_assoc, Rinv_l by lra. lra.
  - apply Rmult_le_reg_r with (s * c); [ lra | ].
    unfold Rdiv. rewrite Rmult_assoc, Rinv_l by lra. lra.
Qed.

(** C2 (amended): above the 0.5 threshold the sideslip is asin of the
    quotient vx / s and the angle of attack is minus asin of the quotient
    vy / (s * cos beta), each handed to asin as computed, without a clamp.
    In real arithmetic both quotients lie in [-1, 1] (the second as soon as
    vy and vz are not both 0), so there asin stays within its domain. *)
Theorem asin_arguments_unclamped :
  (forall (num : Type) (N : JsNumber num) (v : Vec3.t num),
     lessThan (lit 0.5) (Vec3.length v) = true ->
     beta v = Math_asin (betaArg v) /\
     alpha v = unaryMinus (Math_asin (alphaArg v)) /\
     betaArg v = divide (Vec3.x v) (Vec3.length v) /\
     alphaArg v
     = divide (Vec3.y v) (multiply (Vec3.length v) (Math_cos (beta v)))) /\
  (forall v : Vec3.t R,
     0.5 < Vec3.length v ->
     -1 <= betaArg v <= 1 /\
     (Vec3.y v <> 0 \/ Vec3.z v <> 0 -> -1 <= alphaArg v <= 1)).
Proof.
  split.
  - intros num N v Hfast.
    destruct (angles_when_fast v Hfast) as [Hb Ha]. auto.
  - intros v Hfast. split.
    + apply betaArg_range. lra.
    + now apply alphaArg_range.
Qed.

Lemma asin_arguments_unclamped_witness :
  let v := Vec3.new 3 4 0 in
  -1 <= betaArg v <= 1 /\ -1 <= alphaArg v <= 1.
Proof.
  intros v.
  assert (Hlen : Vec3.length v = 5).
  { rewrite length_Ideal. simpl.
    replace (3 * 3 + 4 * 4 + 0 * 0) with (5 * 5) by lra.
    apply sqrt_square. lra. }
  destruct (proj2 asin_arguments_unclamped v) as [Hb Ha].
  - rewrite Hlen. lra.
  - split; [ exact Hb | ]. apply Ha. left. simpl. lra.
Defined.

End AnglesIdeal.

(** ** Forces in given situations *)

Section ForwardFlight.
Local Open Scope float_scope.
Variable M : MathLib.
Variable Quaternion_inverse : Quaternion.t float -> Quaternion.t float.
Variable Quaternion_vmult : Quaternion.t float -> Vec3.t float -> Vec3.t float.

(** What ECMAScript fixes of the two functions: asin(+0) is +0 and
    cos(+0) is 1. *)
Hypothesis asin_zero : asin_impl M 0 = 0.
Hypothesis cos_zero : cos_impl M 0 = 1.

Lemma forward_angles :
  let v := Vec3.new 0 0 50 in
  @beta float (IEEE M) v = 0 /\ @alpha float (IEEE M) v = -0.
Proof.
  destruct M as [fa fc fs fp]. cbn [asin_impl cos_impl] in *.
  split.
  - vm_compute. exact asin_zero.
  - vm_compute. rewrite asin_zero. vm_compute. rewrite cos_zero. vm_compute.
    rewrite asin_zero. reflexivity.
Qed.

Lemma applied_same_inputs (w1 w2 : World float) :
  same_inputs w1 w2 ->
  @applied float (IEEE M) Quaternion_inverse Quaternion_vmult w1
  = @applied float (IEEE M) Quaternion_inverse Quaternion_vmult w2.
Proof.
  intros H.
  destruct (pure_physicsPreStep (N := IEEE M) Quaternion_inverse Quaternion_vmult)
    as [_ Hstable].
  now apply Hstable.
Qed.

(** C1: body-local velocity (0, 0, 50), no pitch, yaw or roll input,
    throttle pressed, brake released, engine power 1.  Then the sideslip is
    0, the angle of attack is 0 (the number -0, equal to 0), the
    angle-dependent lift coefficient is 0, the drag coefficient is exactly
    0.35, the thrust is 400 times the engine power 1, and the first force
    handed to the integrator is that thrust along the forward axis, applied
    at the origin. *)
Theorem forward_flight_scenario (w : World float) :
  let a := actions (plane w) in
  let v := Vec3.new 0 0 50 in
  Quaternion_vmult (Quaternion_inverse (Body.quaternion (body w)))
    (Body.velocity (body w)) = v ->
  isPressed (throttle a) = true -> isPressed (brake a) = false ->
  isPressed (pitchUp a) = false -> isPressed (pitchDown a) = false ->
  isPressed (yawLeft a) = false -> isPressed (yawRight a) = false ->
  isPressed (rollLeft a) = false -> isPressed (rollRight a) = false ->
  enginePower (plane w) = 1 ->
  @beta float (IEEE M) v = 0 /\
  js_eq (@alpha float (IEEE M) v) 0 = true /\
  js_eq (@liftCoef float (IEEE M) (@alpha float (IEEE M) v)) 0 = true /\
  @dragCoef float (IEEE M) (@alpha float (IEEE M) v) = 0.35 /\
  @trust float (IEEE M) a (enginePower (plane w)) = 400 * 1 /\
  hd_error (@applied float (IEEE M) Quaternion_inverse Quaternion_vmult w)
  = Some (Vec3.new 0 0 (400 * 1), Vec3.new 0 0 0).
Proof.
  intros a v Hv Ht Hb Hpu Hpd Hyl Hyr Hrl Hrr Hp.
  destruct forward_angles as [Hbeta Halpha]. fold v in Hbeta, Halpha.
  rewrite Hbeta, Halpha.
  assert (Htrust : @trust float (IEEE M) a (enginePower (plane w)) = 400 * 1).
  { unfold trust. fold a. rewrite Ht, Hb, Hp. vm_compute. reflexivity. }
  repeat split; try (vm_compute; reflexivity).
  - exact Htrust.
  - rewrite (applied_same_inputs w
       {| plane := plane w;
          body := {| Body.quaternion := Body.quaternion (body w);
                     Body.velocity := Body.velocity (body w);
                     Body.forces := [] |} |})
      by (unfold same_inputs; simpl; auto).
    unfold applied, added, physicsPreStep, bind, pressed, ofBody, ofPlane,
      applyLocalForce, ret.
    cbn [fst snd plane body Body.quaternion Body.velocity Body.forces extend
         Body.applyLocalForce List.length skipn app].
    subst a.
    repeat (first [ rewrite Hpu | rewrite Hpd | rewrite Hyl | rewrite Hyr
                  | rewrite Hrl | rewrite Hrr ];
            cbn [when ret fst snd plane body Body.quaternion Body.velocity
                 Body.forces Body.applyLocalForce List.length skipn app hd_error]).
    rewrite Htrust. reflexivity.
Qed.

End ForwardFlight.

Lemma forward_flight_scenario_witness :
  let w := Scenario.world
             (Scenario.airplaneAtPower (Scenario.keys true false false false) 3 1%float)
             (Vec3.new 0 0 50)%float in
  let v := (Vec3.new 0 0 50)%float in
  beta v = 0%float /\
  js_eq (alpha v) 0%float = true /\
  js_eq (liftCoef (alpha v)) 0%float = true /\
  dragCoef (alpha v) = 0.35%float /\
  trust (actions (plane w)) (enginePower (plane w)) = 400%float /\
  hd_error (applied Quaternion.inverse Quaternion.vmult w)
  = Some (Vec3.new 0 0 400, Vec3.new 0 0 0)%float.
Proof.
  intros w v.
  apply (forward_flight_scenario SampleMath.lib Quaternion.inverse Quaternion.vmult
           eq_refl eq_refl w); reflexivity.
Defined.

(** ** Control authority *)

Section ControlAuthority.
Local Open Scope R_scope.

Lemma pitchF_below_alphaMax (a ss : R) : a < 0.35 -> pitchF a ss = ss * 0.04.
Proof. intros H. unfold pitchF, alphaMax. ideal_cases. Qed.

Lemma pitchF_from_alphaMax (a ss : R) : 0.35 <= a -> pitchF a ss = ss * 0.02.
Proof. intros H. unfold pitchF, alphaMax. ideal_cases. Qed.

Lemma yawF_below_alphaMax (b ss : R) : b < 0.35 -> yawF b ss = ss * 0.04.
Proof. intros H. unfold yawF, alphaMax. ideal_cases. Qed.

Lemma yawF_from_alphaMax (b ss : R) : 0.35 <= b -> yawF b ss = ss * 0.02.
Proof. intros H. unfold yawF, alphaMax. ideal_cases. Qed.

Lemma sqrt2_gt_1 : 1 < sqrt 2.
Proof. rewrite <- sqrt_1 at 1. apply sqrt_lt_1_alt. lra. Qed.

Lemma length_diagonal (x y z : R) :
  x * x + y * y + z * z = 50 -> Vec3.length (Vec3.new x y z) = 5 * sqrt 2.
Proof.
  intros H. rewrite length_Ideal. simpl. rewrite H.
  replace 50 with ((5 * 5) * 2) by lra.
  rewrite sqrt_mult by lra. rewrite sqrt_square by lra. reflexivity.
Qed.

Lemma PI4_beyond_alphaMax : 0.35 < PI / 4.
Proof. pose proof PI2_3_2. lra. Qed.

Lemma alpha_diving : alpha (Vec3.new 0 5 5) = - (PI / 4).
Proof.
  pose proof sqrt2_gt_1 as Hs.
  assert (Hlen := length_diagonal 0 5 5 ltac:(lra)).
  destruct (lessThan_Ideal (lit 0.5) (Vec3.length (Vec3.new 0 5 5))) as [_ Hfast].
  unfold alpha, alphaArg, beta, betaArg.
  rewrite Hfast by (rewrite Hlen; ideal_simpl; lra).
  rewrite Hlen. ideal_simpl. cbn [Vec3.x Vec3.y Vec3.z].
  replace (0 / (5 * sqrt 2)) with 0 by (field; lra).
  rewrite asin_0, cos_0.
  replace (5 / (5 * sqrt 2 * 1)) with (/ sqrt 2) by (field; lra).
  now rewrite asin_inv_sqrt2.
Qed.

Lemma beta_slipping : beta (Vec3.new (-5) 0 5) = - (PI / 4).
Proof.
  pose proof sqrt2_gt_1 as Hs.
  assert (Hlen := length_diagonal (-5) 0 5 ltac:(lra)).
  destruct (lessThan_Ideal (lit 0.5) (Vec3.length (Vec3.new (-5) 0 5))) as [_ Hfast].
  unfold beta, betaArg.
  rewrite Hfast by (rewrite Hlen; ideal_simpl; lra).
  rewrite Hlen. ideal_simpl. cbn [Vec3.x Vec3.y Vec3.z].
  replace (-5 / (5 * sqrt 2)) with (- / sqrt 2) by (field; lra).
  rewrite asin_opp. now rewrite asin_inv_sqrt2.
Qed.

(** C4: the claim is that the reduced constant 0.02 is chosen by the
    absolute value of the angle.  The code compares the signed angle: at
    the body-local velocity (0, 5, 5) the angle of attack is -pi/4, beyond
    the stall angle in absolute value, and the pitch force is still
    s^2 * 0.04, not s^2 * 0.02; at (-5, 0, 5) the same holds of the sideslip
    and the yaw force.  On binary64 numbers, with pitchUp held at
    (0, 5, 5), the force handed to the integrator is (0, -2.0000000000000004, 0)
    at (0, 0, -1), where the claim asks for 1.0000000000000002. *)
Theorem control_authority_at_negative_stall :
  (let v := Vec3.new 0 5 5 in
   let ss := Vec3.length v * Vec3.length v in
   alpha v = - (PI / 4) /\ alphaMax <= Rabs (alpha v) /\ ss = 50 /\
   pitchF (alpha v) ss = ss * 0.04 /\ pitchF (alpha v) ss <> ss * 0.02) /\
  (let v := Vec3.new (-5) 0 5 in
   let ss := Vec3.length v * Vec3.length v in
   beta v = - (PI / 4) /\ alphaMax <= Rabs (beta v) /\ ss = 50 /\
   yawF (beta v) ss = ss * 0.04 /\ yawF (beta v) ss <> ss * 0.02) /\
  (let v := (Vec3.new 0 5 5)%float in
   let ss := PrimFloat.mul (Vec3.length v) (Vec3.length v) in
   let w := Scenario.world
              (Scenario.airplaneAtPower (Scenario.keys false true false false) 0 0%float) v in
   alpha v = (-0.78539816339744817)%float /\
   PrimFloat.leb alphaMax (PrimFloat.abs (alpha v)) = true /\
   hd_error (applied Quaternion.inverse Quaternion.vmult w)
   = Some (Vec3.new 0 (-2.0000000000000004) 0, Vec3.new 0 0 (-1))%float /\
   PrimFloat.mul ss 0.04%float = 2.0000000000000004%float /\
   PrimFloat.mul ss 0.02%float = 1.0000000000000002%float).
Proof.
  pose proof PI4_beyond_alphaMax as Hpi.
  pose proof sqrt2_gt_1 as Hs2.
  assert (Hsq : sqrt 2 * sqrt 2 = 2) by (apply sqrt_sqrt; lra).
  split; [ | split ].
  - intros v ss. subst v ss. rewrite alpha_diving.
    rewrite (length_diagonal 0 5 5) by lra.
    assert (Hss : 5 * sqrt 2 * (5 * sqrt 2) = 50) by nra.
    rewrite Hss, pitchF_below_alphaMax by lra.
    rewrite Rabs_left by lra. unfold alphaMax. ideal_simpl.
    repeat split; lra.
  - intros v ss. subst v ss. rewrite beta_slipping.
    rewrite (length_diagonal (-5) 0 5) by lra.
    assert (Hss : 5 * sqrt 2 * (5 * sqrt 2) = 50) by nra.
    rewrite Hss, yawF_below_alphaMax by lra.
    rewrite Rabs_left by lra. unfold alphaMax. ideal_simpl.
    repeat split; lra.
  - vm_compute. repeat split; reflexivity.
Qed.

End ControlAuthority.

(** * Further properties of the code *)

(** ** The forces of one step *)

(** Runs the hook on a world whose body carries no force yet, one key
    test at a time. *)
Ltac run_hook :=
  unfold applied, added, physicsPreStep, bind, pressed, ofBody, ofPlane,
    applyLocalForce, ret, clearForces;
  cbn [fst snd plane body Body.quaternion Body.velocity Body.forces
       Body.applyLocalForce List.length skipn app];
  repeat (match goal with
          | H : isPressed ?k = _ |- context [when (isPressed ?k) _] => rewrite H
          | |- context [when (isPressed ?k) _] => destruct (isPressed k) eqn:?
          end;
          cbn [when ret fst snd plane body Body.quaternion Body.velocity
               Body.forces Body.applyLocalForce List.length skipn app]).

(** Names the aerodynamic quantities in the goal, so that what is left is
    the arithmetic on them. *)
Ltac name_quantities :=
  repeat match goal with
  | |- context [pitchF ?a ?b] => generalize (pitchF a b); intro
  | |- context [yawF ?a ?b] => generalize (yawF a b); intro
  | |- context [trust ?a ?b] => generalize (trust a b); intro
  | |- context [Vec3.scale ?v ?k] => generalize (Vec3.scale v k); intro
  | |- context [dynamicPressure ?q] => generalize (dynamicPressure q); intro
  | |- context [liftCoef ?a] => generalize (liftCoef a); intro
  | |- context [Math_cos ?a] => generalize (Math_cos a); intro
  | |- context [Math_sin ?a] => generalize (Math_sin a); intro
  | |- context [beta ?v] => generalize (beta v); intro
  | |- context [Vec3.length ?v] => generalize (Vec3.length v); intro
  | |- context [if ?c then ?a else ?b] => generalize (if c then a else b); intro
  end.

(** Equality of two vectors of real numbers, component by component. *)
Ltac vec3_lra :=
  unfold cL0, wingS;
  cbv beta iota delta [netForce netTorque fold_right fst snd
                       Vec3.plus Vec3.cross Vec3.dot Vec3.x Vec3.y Vec3.z];
  ideal_simpl;
  try (f_equal; lra).

Section HookForces.
Context {num : Type} {N : JsNumber num}.
Variable Quaternion_inverse : Quaternion.t num -> Quaternion.t num.
Variable Quaternion_vmult : Quaternion.t num -> Vec3.t num -> Vec3.t num.

Lemma applied_clearForces (w : World num) :
  applied Quaternion_inverse Quaternion_vmult w
  = applied Quaternion_inverse Quaternion_vmult (clearForces w).
Proof.
  destruct (pure_physicsPreStep Quaternion_inverse Quaternion_vmult) as [_ Hstable].
  apply Hstable. unfold same_inputs, clearForces. simpl. auto.
Qed.

Lemma length_applied (w : World num) (pu pd yl yr rl rr : bool) :
  isPressed (pitchUp (actions (plane w))) = pu ->
  isPressed (pitchDown (actions (plane w))) = pd ->
  isPressed (yawLeft (actions (plane w))) = yl ->
  isPressed (yawRight (actions (plane w))) = yr ->
  isPressed (rollLeft (actions (plane w))) = rl ->
  isPressed (rollRight (actions (plane w))) = rr ->
  List.length (applied Quaternion_inverse Quaternion_vmult w)
  = (5 + Nat.b2n pu + Nat.b2n pd + Nat.b2n yl + Nat.b2n yr
       + 2 * Nat.b2n rl + 2 * Nat.b2n rr)%nat.
Proof.
  intros <- <- <- <- <- <-. rewrite applied_clearForces. run_hook; reflexivity.
Qed.

(** The hook applies the thrust, the drag, the two lifts and the side
    force on every step, whatever their value, one more force for each
    pitch or yaw key held and two more for each roll key held. *)
Theorem applied_count (w : World num) :
  let a := actions (plane w) in
  List.length (applied Quaternion_inverse Quaternion_vmult w)
  = (5 + Nat.b2n (isPressed (pitchUp a)) + Nat.b2n (isPressed (pitchDown a))
       + Nat.b2n (isPressed (yawLeft a)) + Nat.b2n (isPressed (yawRight a))
       + 2 * Nat.b2n (isPressed (rollLeft a))
       + 2 * Nat.b2n (isPressed (rollRight a)))%nat.
Proof.
  intros a. now apply length_applied.
Qed.

End HookForces.

Section HookResultants.
Local Open Scope R_scope.
Variable Quaternion_inverse : Quaternion.t R -> Quaternion.t R.
Variable Quaternion_vmult : Quaternion.t R -> Vec3.t R -> Vec3.t R.

(** A roll key adds a pure couple about the forward axis: it leaves the
    sum of the forces as it is and turns the sum of their moments by six
    times the speed, rollLeft one way and rollRight the other; with both
    keys held the four wingtip forces cancel and force and moment are what
    they are with neither held. *)
Theorem roll_keys_pure_couple (w0 w : World R) :
  same_but_roll w w0 ->
  isPressed (rollLeft (actions (plane w0))) = false ->
  isPressed (rollRight (actions (plane w0))) = false ->
  let s := Vec3.length (localVelocity Quaternion_inverse Quaternion_vmult w0) in
  let F := fun x => netForce (applied Quaternion_inverse Quaternion_vmult x) in
  let T := fun x => netTorque (applied Quaternion_inverse Quaternion_vmult x) in
  let l := isPressed (rollLeft (actions (plane w))) in
  let r := isPressed (rollRight (actions (plane w))) in
  F w = F w0 /\
  T w = Vec3.plus (Vec3.new 0 0 ((if r then 6 * s else 0) - (if l then 6 * s else 0)))
                  (T w0).
Proof.
  intros (Hv & Hq & Hw & Hp & Ht & Hb & Hpu & Hpd & Hyl & Hyr) Hl0 Hr0 s F T l r.
  subst s F T l r. unfold localVelocity.
  rewrite (applied_clearForces _ _ w), (applied_clearForces _ _ w0).
  destruct (isPressed (pitchUp (actions (plane w0)))) eqn:Epu,
           (isPressed (pitchDown (actions (plane w0)))) eqn:Epd,
           (isPressed (yawLeft (actions (plane w0)))) eqn:Eyl,
           (isPressed (yawRight (actions (plane w0)))) eqn:Eyr,
           (isPressed (rollLeft (actions (plane w)))) eqn:El,
           (isPressed (rollRight (actions (plane w)))) eqn:Er.
  all: run_hook; unfold trust; rewrite Hv, Hq, Hw, Hp, Ht, Hb;
    name_quantities; split; vec3_lra.
Qed.

End HookResultants.

Lemma roll_keys_pure_couple_witness :
  let v := (Vec3.new 0 0 10)%R in
  let w0 := IdealScenario.world (IdealScenario.airplane (IdealScenario.rollKeys false false) true 0) v in
  let w := IdealScenario.world (IdealScenario.airplane (IdealScenario.rollKeys true true) true 0) v in
  netForce (applied Quaternion.inverse Quaternion.vmult w)
  = netForce (applied Quaternion.inverse Quaternion.vmult w0).
Proof.
  intros v w0 w.
  apply (roll_keys_pure_couple Quaternion.inverse Quaternion.vmult w0 w);
    [ unfold same_but_roll; repeat split | reflexivity | reflexivity ].
Defined.

Section HookTail.
Context {num : Type} {N : JsNumber num}.
Variable Quaternion_inverse : Quaternion.t num -> Quaternion.t num.
Variable Quaternion_vmult : Quaternion.t num -> Vec3.t num -> Vec3.t num.
Local Open Scope js_scope.

(** The five forces that close every step, in the order of the calls:
    thrust, drag, baseline lift, angle-dependent lift, side force. *)
Lemma hook_tail (w : World num) :
  let v := localVelocity Quaternion_inverse Quaternion_vmult w in
  let q := dynamicPressure (Vec3.length v * Vec3.length v) in
  let aero := Vec3.new (lit 0) (lit 0) (- lit 0.1) in
  let l := applied Quaternion_inverse Quaternion_vmult w in
  fromEnd 4 l
  = Some (Vec3.new (lit 0) (lit 0) (trust (actions (plane w)) (enginePower (plane w))),
          Vec3.new (lit 0) (lit 0) (lit 0)) /\
  fromEnd 3 l
  = Some (Vec3.scale (Vec3.negate (Vec3.normalize v)) (dragCoef (alpha v) * q * wingS),
          aero) /\
  fromEnd 2 l
  = Some (Vec3.new (lit 0) (cL0 * q * wingS * Math_cos (alpha v))
                   (cL0 * q * wingS * Math_sin (alpha v)),
          Vec3.new (lit 0) (lit 0)
            (if (0 <? numWheelsOnGround (plane w))%nat then lit 0.2 else lit 0.05)) /\
  fromEnd 1 l
  = Some (Vec3.new (lit 0) (liftCoef (alpha v) * q * wingS * Math_cos (alpha v))
                   (liftCoef (alpha v) * q * wingS * Math_sin (alpha v)),
          aero) /\
  fromEnd 0 l = Some (Vec3.new (- (beta v * q)) (lit 0) (lit 0), aero).
Proof.
  intros v q aero l. subst v q aero l. unfold localVelocity.
  rewrite applied_clearForces. run_hook; repeat split; reflexivity.
Qed.

End HookTail.

(** ** The aerodynamic coefficients and forces in real arithmetic *)

Section Aerodynamics.
Local Open Scope R_scope.
Variable Quaternion_inverse : Quaternion.t R -> Quaternion.t R.
Variable Quaternion_vmult : Quaternion.t R -> Vec3.t R -> Vec3.t R.

(** With the altitude fixed at 0 the density factor is 1 and the dynamic
    pressure is half of 1.225 times the squared speed. *)
Lemma dynamicPressure_Ideal (ss : R) : dynamicPressure ss = 0.6125 * ss.
Proof.
  unfold dynamicPressure, height. ideal_simpl.
  replace (- (141 * / 1000000) * (0 * / 1)) with 0 by lra.
  rewrite Rpower_O by apply exp_pos. lra.
Qed.

Lemma length_nonneg (v : Vec3.t R) : 0 <= Vec3.length v.
Proof. rewrite length_Ideal. apply sqrt_pos. Qed.

(** The lift coefficient is an odd function of the angle of attack and
    never exceeds 1.595 in absolute value, the value it takes at the stall
    angle. *)
Theorem liftCoef_odd_and_bounded (a : R) :
  liftCoef (- a) = - liftCoef a /\ Rabs (liftCoef a) <= 1.595.
Proof.
  split.
  - unfold liftCoef, alphaMax. ideal_cases.
  - unfold liftCoef, alphaMax. ideal_cases.
Qed.

Lemma dragCoef_at_least_base (a : R) : 0.35 <= dragCoef a.
Proof.
  pose proof PI_RGT_0 as Hpi. unfold dragCoef. ideal_simpl.
  destruct (Rlt_dec (Rabs a) (PI * (5 * / 10))); nra.
Qed.

(** The drag coefficient is an even function of the angle of attack and
    never goes below its base term 0.35, reached at angle 0 and at a right
    angle. *)
Theorem dragCoef_even_and_at_least_base (a : R) :
  dragCoef (- a) = dragCoef a /\ 0.35 <= dragCoef a /\
  dragCoef 0 = 0.35 /\ dragCoef (PI / 2) = 0.35 /\
  (Rabs a < PI / 2 -> dragCoef a = 0.35 + a * a).
Proof.
  pose proof PI_RGT_0 as Hpi.
  repeat split.
  - unfold dragCoef. ideal_simpl. rewrite Rabs_Ropp.
    destruct (Rlt_dec (Rabs a) (PI * (5 * / 10))); lra.
  - unfold dragCoef. ideal_simpl.
    destruct (Rlt_dec (Rabs a) (PI * (5 * / 10))); nra.
  - unfold dragCoef. ideal_simpl. rewrite Rabs_R0.
    destruct (Rlt_dec 0 (PI * (5 * / 10))); lra.
  - unfold dragCoef. ideal_simpl. rewrite Rabs_right by lra.
    destruct (Rlt_dec (PI / 2) (PI * (5 * / 10))); [ lra | ].
    replace (PI / 2 - PI * (5 * / 10)) with 0 by lra. lra.
  - intros Ha. unfold dragCoef. ideal_simpl.
    destruct (Rlt_dec (Rabs a) (PI * (5 * / 10))); lra.
Qed.

Lemma dragCoef_even_and_at_least_base_witness :
  dragCoef 1 = 0.35 + 1 * 1.
Proof.
  destruct (dragCoef_even_and_at_least_base 1) as (_ & _ & _ & _ & H).
  apply H. rewrite Rabs_R1. pose proof PI2_3_2. lra.
Defined.



(** The drag force is directed against the velocity: its scalar product
    with the body-local velocity is minus the drag magnitude
    (drag coefficient x dynamic pressure x wing area) times the speed, so
    it is never positive, and the drag takes energy out whatever the
    attitude. *)
Theorem drag_opposes_velocity (w : World R) :
  let v := localVelocity Quaternion_inverse Quaternion_vmult w in
  let s := Vec3.length v in
  exists d : Vec3.t R,
    fromEnd 3 (applied Quaternion_inverse Quaternion_vmult w)
      = Some (d, Vec3.new 0 0 (- 0.1)) /\
    Vec3.dot d v = - (dragCoef (alpha v) * (0.6125 * (s * s)) * 0.7) * s /\
    Vec3.dot d v <= 0.
Proof.
  intros v s.
  destruct (hook_tail Quaternion_inverse Quaternion_vmult w) as (_ & Hdrag & _).
  cbv zeta in Hdrag. fold v in Hdrag. fold s in Hdrag.
  rewrite dynamicPressure_Ideal in Hdrag.
  eexists. split.
  - rewrite Hdrag. f_equal. f_equal. f_equal; ideal_simpl; lra.
  - assert (Hs : 0 <= s) by apply length_nonneg.
    assert (Hsq := length_sqr v). fold s in Hsq.
    assert (Hbase := dragCoef_at_least_base (alpha v)).
    set (k := dragCoef (alpha v)) in *.
    assert (Hdot : Vec3.dot
              (Vec3.scale (Vec3.negate (Vec3.normalize v))
                 (multiply (multiply k (0.6125 * multiply s s)) wingS)) v
            = - (k * (0.6125 * (s * s)) * 0.7) * s).
    { unfold Vec3.normalize. fold s. unfold wingS. ideal_simpl.
      destruct (Rlt_dec (0 * / 1) s) as [Hpos | Hzero].
      - unfold Vec3.dot, Vec3.scale, Vec3.negate. cbn [Vec3.x Vec3.y Vec3.z].
        ideal_simpl.
        set (x := Vec3.x v) in *. set (y := Vec3.y v) in *. set (z := Vec3.z v) in *.
        assert (Hx : (x * x + y * y + z * z) / s = s).
        { rewrite <- Hsq. field. lra. }
        transitivity (- (k * (6125 * / 10000 * (s * s)) * (7 * / 10))
                      * ((x * x + y * y + z * z) / s));
          [ field; lra | rewrite Hx; lra ].
      - assert (s = 0) by lra.
        unfold Vec3.dot, Vec3.scale, Vec3.negate. cbn [Vec3.x Vec3.y Vec3.z].
        ideal_simpl. subst s. rewrite H. lra. }
    rewrite Hdot. split; [ reflexivity | ].
    assert (0 <= k * (0.6125 * (s * s)) * 0.7) by nra. nra.
Qed.

(** The side force acts against the sideslip: its lateral component
    times the sideslip angle is never positive. *)
Theorem side_force_opposes_sideslip (w : World R) :
  let v := localVelocity Quaternion_inverse Quaternion_vmult w in
  exists f : Vec3.t R,
    fromEnd 0 (applied Quaternion_inverse Quaternion_vmult w)
      = Some (f, Vec3.new 0 0 (- 0.1)) /\
    Vec3.y f = 0 /\ Vec3.z f = 0 /\
    Vec3.x f * beta v <= 0.
Proof.
  intros v.
  destruct (hook_tail Quaternion_inverse Quaternion_vmult w) as (_ & _ & _ & _ & Hside).
  cbv zeta in Hside. fold v in Hside. rewrite dynamicPressure_Ideal in Hside.
  assert (Hs : 0 <= Vec3.length v) by apply length_nonneg.
  eexists. split.
  - rewrite Hside. f_equal. f_equal. f_equal; ideal_simpl; lra.
  - cbn [Vec3.x Vec3.y Vec3.z]. ideal_simpl.
    set (s := Vec3.length v) in *. set (b := beta v).
    repeat split; try lra.
    assert (0 <= 0.6125 * (s * s)) by nra. nra.
Qed.

(** The thrust is directed along the forward axis and applied at the
    origin of the body frame, so that it has no moment; it is 0 unless the
    throttle is held and the brake is not; and with the engine power in
    [0, 1] it lies between 0 and 400. *)
Theorem thrust_rule (w : World R) :
  let a := actions (plane w) in
  let p := enginePower (plane w) in
  fromEnd 4 (applied Quaternion_inverse Quaternion_vmult w)
    = Some (Vec3.new 0 0 (trust a p), Vec3.new 0 0 0) /\
  Vec3.cross (Vec3.new 0 0 0) (Vec3.new 0 0 (trust a p)) = Vec3.new 0 0 0 /\
  (isPressed (throttle a) = false \/ isPressed (brake a) = true -> trust a p = 0) /\
  (isPressed (throttle a) = true -> isPressed (brake a) = false -> trust a p = 400 * p) /\
  (0 <= p <= 1 -> 0 <= trust a p <= 400).
Proof.
  intros a p.
  destruct (hook_tail Quaternion_inverse Quaternion_vmult w) as (Hthrust & _).
  cbv zeta in Hthrust. fold a p in Hthrust.
  split; [ | split; [ | split; [ | split ] ] ].
  - rewrite Hthrust. f_equal. f_equal; f_equal; ideal_simpl; lra.
  - unfold Vec3.cross. cbn [Vec3.x Vec3.y Vec3.z]. ideal_simpl. f_equal; lra.
  - unfold trust. intros [H | H]; rewrite H.
    + cbn [andb]. ideal_simpl. lra.
    + cbn [negb]. rewrite andb_false_r. ideal_simpl. lra.
  - intros Ht Hb. unfold trust. rewrite Ht, Hb. cbn [andb negb]. ideal_simpl. lra.
  - intros Hp. unfold trust.
    destruct (isPressed (throttle a) && negb (isPressed (brake a))); ideal_simpl; lra.
Qed.

End Aerodynamics.

Section StillAir.
Local Open Scope R_scope.
Variable Quaternion_inverse : Quaternion.t R -> Quaternion.t R.
Variable Quaternion_vmult : Quaternion.t R -> Vec3.t R -> Vec3.t R.

Lemma length_zero : Vec3.length (Vec3.new 0 0 0) = 0.
Proof.
  rewrite length_Ideal. simpl.
  replace (0 * 0 + 0 * 0 + 0 * 0) with 0 by lra. apply sqrt_0.
Qed.

Lemma angles_zero_at_rest :
  beta (Vec3.new 0 0 0) = 0 /\ alpha (Vec3.new 0 0 0) = 0.
Proof.
  destruct (angles_zero_unless_fast (N := Ideal) (Vec3.new 0 0 0)) as [Hb Ha].
  - rewrite length_zero. ideal_cases.
  - rewrite Hb, Ha. ideal_simpl. lra.
Qed.

Lemma normalize_zero :
  Vec3.normalize (Vec3.new 0 0 0) = Vec3.new (lit 0) (lit 0) (lit 0).
Proof.
  unfold Vec3.normalize. rewrite length_zero. ideal_cases. reflexivity.
Qed.

Lemma pitchF_at_rest (a : R) : pitchF a (0 * 0) = 0.
Proof. unfold pitchF. ideal_cases. Qed.

Lemma yawF_at_rest (b : R) : yawF b (0 * 0) = 0.
Proof. unfold yawF. ideal_cases. Qed.

(** At rest in the body frame every force of the step is the zero vector
    except the thrust: no lift, no drag, no side force, and the pitch, yaw
    and roll keys have no effect. *)
Theorem still_air_only_thrust (w : World R) :
  localVelocity Quaternion_inverse Quaternion_vmult w = Vec3.new 0 0 0 ->
  let thrust := (Vec3.new 0 0 (trust (actions (plane w)) (enginePower (plane w))),
                 Vec3.new 0 0 0) in
  Forall (fun fp => fst fp = Vec3.new 0 0 0 \/ fp = thrust)
         (applied Quaternion_inverse Quaternion_vmult w).
Proof.
  unfold localVelocity. intros Hrest. cbv zeta.
  destruct angles_zero_at_rest as [Hb Ha].
  rewrite applied_clearForces. run_hook;
    rewrite ?Hrest, ?normalize_zero, ?length_zero, ?Ha, ?Hb,
      ?pitchF_at_rest, ?yawF_at_rest, ?dynamicPressure_Ideal;
    repeat (constructor; [ first
      [ right; f_equal; f_equal; ideal_simpl; lra
      | left; unfold Vec3.scale, Vec3.negate, cL0, wingS;
        cbn [fst Vec3.x Vec3.y Vec3.z]; ideal_simpl; f_equal; lra ] | ]);
    constructor.
Qed.

End StillAir.

Lemma still_air_only_thrust_witness :
  let p := setEnginePower 1%R
             (IdealScenario.airplane (Scenario.keys true true true true) true 3) in
  let w := IdealScenario.world p (Vec3.new 0 0 0)%R in
  Forall (fun fp => fst fp = (Vec3.new 0 0 0)%R
                    \/ fp = (Vec3.new 0 0 (trust (actions p) 1), Vec3.new 0 0 0)%R)
         (applied Quaternion.inverse Quaternion.vmult w).
Proof.
  intros p w.
  apply (still_air_only_thrust Quaternion.inverse Quaternion.vmult w).
  unfold localVelocity, Quaternion.vmult, Quaternion.inverse, Quaternion.conjugate.
  simpl. f_equal; lra.
Defined.

Lemma thrust_rule_witness :
  let p := setEnginePower 1%R
             (IdealScenario.airplane (Scenario.keys true false false false) true 3) in
  (trust (actions p) (enginePower p) = 400 * 1)%R.
Proof.
  intros p.
  destruct (thrust_rule Quaternion.inverse Quaternion.vmult
              (IdealScenario.world p (Vec3.new 0 0 30)%R)) as (_ & _ & _ & H & _).
  apply H; reflexivity.
Defined.

(** ** More on the update tick *)

Section EngineBinary64.
Local Open Scope float_scope.

Lemma lit_1 : float_of_Q 1 = 1. Proof. vm_compute. reflexivity. Qed.

(** On binary64 numbers, for every time step and every power, not-a-number
    and negative values included: a tick with a character in control never
    returns a power above 1 and a tick with nobody in control never returns
    one below 0; full power is a fixed point of the first and zero power of
    the second. *)
Theorem enginePowerStep_clamps_binary64 (M : MathLib) (timeStep power : float) :
  PrimFloat.ltb 1 (@enginePowerStep float (IEEE M) true timeStep power) = false /\
  PrimFloat.ltb (@enginePowerStep float (IEEE M) false timeStep power) 0 = false /\
  @enginePowerStep float (IEEE M) true timeStep 1 = 1 /\
  @enginePowerStep float (IEEE M) false timeStep 0 = 0.
Proof.
  unfold enginePowerStep. cbn [lessThan lit add subtract multiply IEEE].
  rewrite lit_0, lit_1.
  repeat split.
  - destruct (PrimFloat.ltb power 1);
      match goal with
      | |- context [if PrimFloat.ltb 1 ?x then _ else _] =>
          destruct (PrimFloat.ltb 1 x) eqn:E; [ reflexivity | exact E ]
      end.
  - destruct (PrimFloat.ltb 0 power);
      match goal with
      | |- context [if PrimFloat.ltb ?x 0 then _ else _] =>
          destruct (PrimFloat.ltb x 0) eqn:E; [ reflexivity | exact E ]
      end.
Qed.

End EngineBinary64.

Section EngineEdges.
Local Open Scope R_scope.
Variable simulate : R -> SpringSimulator.t R -> SpringSimulator.t R.

(** The range [0, 1] is kept only for time steps that are not negative:
    the controlled branch has a ceiling and no floor, the uncontrolled
    branch a floor and no ceiling.  With a negative time step a controlled
    tick lowers the power, below 0 if the step is large enough, and an
    uncontrolled tick raises it, above 1 if the step is large enough. *)
Theorem enginePowerStep_negative_timeStep (dt p : R) :
  dt < 0 ->
  (p < 1 -> enginePowerStep true dt p = p + 0.4 * dt) /\
  (0 < p -> enginePowerStep false dt p = p - 0.12 * dt) /\
  (0 <= p < 1 -> p + 0.4 * dt < 0 -> enginePowerStep true dt p < 0) /\
  (0 < p <= 1 -> 1 < p - 0.12 * dt -> 1 < enginePowerStep false dt p).
Proof.
  intros Hdt. unfold enginePowerStep. repeat split; intros; ideal_cases.
Qed.

Lemma enginePowerStep_negative_timeStep_witness :
  enginePowerStep true (-1) 0 = 0 + 0.4 * -1 /\ enginePowerStep true (-1) 0 < 0.
Proof.
  destruct (enginePowerStep_negative_timeStep (-1) 0) as (H1 & _ & H3 & _);
    [ lra | ].
  split; [ apply H1 | apply H3 ]; lra.
Defined.

(** Spin-up: started with the engine off and a character in control on
    every tick, the power after ticks covering the time T is
    min(1, 0.4 * T): below 1 as long as T < 2.5 seconds and 1 from
    T = 2.5 seconds on. *)
Theorem engine_spin_up (this : Airplane R) (ticks : list (Inputs * R)) :
  enginePower this = 0 ->
  Forall (fun t => 0 <= snd t) ticks ->
  Forall controlledTick ticks ->
  enginePower (run simulate ticks this) = Rmin 1 (0.4 * elapsed ticks) /\
  (elapsed ticks < 2.5 -> enginePower (run simulate ticks this) < 1) /\
  (2.5 <= elapsed ticks -> enginePower (run simulate ticks this) = 1).
Proof.
  intros H0 Hdt Hc.
  rewrite (enginePower_run_controlled simulate ticks this) by (auto; lra).
  rewrite H0. rewrite Rplus_0_l. split; [ reflexivity | ].
  unfold Rmin. destruct (Rle_dec 1 (0.4 * elapsed ticks)); split; intros; lra.
Qed.

(** The rotor never turns back: with the power in [0, 1] and time steps
    that are not negative, a sequence of ticks turns it by an angle between
    0 and 60 per second of simulated time. *)
Theorem rotor_turns_forward (ticks : list (Inputs * R)) :
  forall this : Airplane R,
    0 <= enginePower this <= 1 ->
    Forall (fun t => 0 <= snd t) ticks ->
    rotor this <= rotor (run simulate ticks this) <= rotor this + 60 * elapsed ticks.
Proof.
  unfold run.
  induction ticks as [ | t rest IH ]; intros this Hp Hdt;
    cbn [fold_left];
    [ unfold elapsed | change (elapsed (t :: rest)) with (snd t + elapsed rest) ].
  - cbn [fold_right]. lra.
  - inversion Hdt as [ | ? ? Ht Hrest ]; subst.
    assert (Hnext := enginePower_tick_range simulate this t Ht Hp).
    specialize (IH (tick simulate this t) Hnext Hrest).
    assert (Hrot : rotor (tick simulate this t)
                   = rotor this + enginePower (tick simulate this t) * snd t * 60).
    { unfold tick, update, setInputs. cbn [rotor enginePower controlled controllingCharacter].
      ideal_simpl. lra. }
    set (p := enginePower (tick simulate this t)) in *.
    assert (0 <= p * snd t <= snd t) by nra.
    lra.
Qed.

End EngineEdges.

Lemma engine_spin_up_witness :
  let this := IdealScenario.airplane (Scenario.keys true false false false) true 3 in
  let piloted := {| in_actions := actions this;
                    in_controllingCharacter := Some (character 0);
                    in_numWheelsOnGround := 3 |} in
  enginePower (run SampleSpring.simulate [(piloted, 1%R); (piloted, 2%R)] this) = 1%R.
Proof.
  intros this piloted.
  destruct (engine_spin_up SampleSpring.simulate this [(piloted, 1%R); (piloted, 2%R)])
    as (_ & _ & H).
  - simpl. lra.
  - repeat constructor; simpl; lra.
  - repeat constructor; discriminate.
  - apply H. unfold elapsed. simpl. lra.
Defined.

Lemma rotor_turns_forward_witness :
  let this := IdealScenario.airplane (Scenario.keys true false false false) true 3 in
  let piloted := {| in_actions := actions this;
                    in_controllingCharacter := Some (character 0);
                    in_numWheelsOnGround := 3 |} in
  (rotor this <= rotor (run SampleSpring.simulate [(piloted, 1%R)] this))%R.
Proof.
  intros this piloted.
  apply (rotor_turns_forward SampleSpring.simulate [(piloted, 1%R)] this).
  - simpl. lra.
  - repeat constructor; simpl; lra.
Defined.

Section UpdateInvariants.
Context {num : Type} {N : JsNumber num}.
Variable simulate : num -> SpringSimulator.t num -> SpringSimulator.t num.

Lemma run_snoc (ticks : list (Inputs * num)) (t : Inputs * num) (this : Airplane num) :
  run simulate (ticks ++ [t]) this = tick simulate (run simulate ticks this) t.
Proof. unfold run. now rewrite fold_left_app. Qed.

Lemma elevators_count_run (ticks : list (Inputs * num)) :
  forall this : Airplane num,
    List.length (elevators (run simulate ticks this)) = List.length (elevators this).
Proof.
  unfold run. induction ticks as [ | t rest IH ]; intros this; cbn [fold_left].
  - reflexivity.
  - rewrite IH. unfold tick, update, setInputs. cbn [elevators]. apply length_map.
Qed.

Lemma lastDrag_run (ticks : list (Inputs * num)) :
  forall this : Airplane num, lastDrag (run simulate ticks this) = lastDrag this.
Proof.
  unfold run. induction ticks as [ | t rest IH ]; intros this; cbn [fold_left].
  - reflexivity.
  - now rewrite IH.
Qed.

(** After any sequence of ticks the airplane has as many elevators as
    before and its field lastDrag is untouched; after at least one tick the
    right aileron mirrors the left one, every elevator has the rotation of
    the elevator simulator, the rudder that of the rudder simulator, the
    steering value is the position of the steering simulator, and the base
    class fields are the inputs of the last tick. *)
Theorem surfaces_follow_simulators
    (ticks : list (Inputs * num)) (t : Inputs * num) (this : Airplane num) :
  let after := run simulate (ticks ++ [t]) this in
  List.length (elevators after) = List.length (elevators this) /\
  lastDrag after = lastDrag this /\
  leftAileron after = SpringSimulator.position (aileronSimulator after) /\
  rightAileron after = unaryMinus (leftAileron after) /\
  Forall (fun e => e = SpringSimulator.position (elevatorSimulator after))
         (elevators after) /\
  rudder after = SpringSimulator.position (rudderSimulator after) /\
  steeringValue after = SpringSimulator.position (steeringSimulator after) /\
  actions after = in_actions (fst t) /\
  controllingCharacter after = in_controllingCharacter (fst t) /\
  numWheelsOnGround after = in_numWheelsOnGround (fst t).
Proof.
  intros after. subst after.
  split; [ apply elevators_count_run | ].
  split; [ apply lastDrag_run | ].
  rewrite run_snoc. unfold tick, update, setInputs.
  cbn [leftAileron rightAileron elevators rudder steeringValue actions
       controllingCharacter numWheelsOnGround aileronSimulator elevatorSimulator
       rudderSimulator steeringSimulator].
  repeat split.
  apply Forall_forall. intros e He. apply in_map_iff in He.
  destruct He as (_ & He & _). now symmetry.
Qed.

End UpdateInvariants.

Section NoDirection.
Context {num : Type} {N : JsNumber num}.
Variable simulate : num -> SpringSimulator.t num -> SpringSimulator.t num.
Variable Quaternion_inverse : Quaternion.t num -> Quaternion.t num.
Variable Quaternion_vmult : Quaternion.t num -> Vec3.t num -> Vec3.t num.

Hypothesis simulate_target :
  forall timeStep s,
    SpringSimulator.target (simulate timeStep s) = SpringSimulator.target s.

(** [noDirectionPressed] holds exactly when throttle, brake and the yaw
    and roll keys are all released; the pitch keys are not consulted.  When
    it holds, the tick sets the steering, aileron and rudder targets to 0,
    the thrust is 0, and the step applies only the five closing forces and
    one force for each pitch key held. *)
Theorem noDirectionPressed_idle (timeStep : num) (w : World num) :
  let this := plane w in
  let a := actions this in
  let after := update simulate timeStep this in
  (noDirectionPressed this = true <->
     isPressed (throttle a) = false /\ isPressed (brake a) = false /\
     isPressed (yawLeft a) = false /\ isPressed (yawRight a) = false /\
     isPressed (rollLeft a) = false /\ isPressed (rollRight a) = false) /\
  (noDirectionPressed this = true ->
     SpringSimulator.target (steeringSimulator after) = lit 0 /\
     SpringSimulator.target (aileronSimulator after) = lit 0 /\
     SpringSimulator.target (rudderSimulator after) = lit 0 /\
     SpringSimulator.target (elevatorSimulator after)
       = tieBreak (isPressed (pitchUp a)) (isPressed (pitchDown a)) (lit 0.7) /\
     trust a (enginePower this) = lit 0 /\
     List.length (applied Quaternion_inverse Quaternion_vmult w)
       = (5 + Nat.b2n (isPressed (pitchUp a)) + Nat.b2n (isPressed (pitchDown a)))%nat).
Proof.
  intros this a after.
  assert (Hiff : noDirectionPressed this = true <->
     isPressed (throttle a) = false /\ isPressed (brake a) = false /\
     isPressed (yawLeft a) = false /\ isPressed (yawRight a) = false /\
     isPressed (rollLeft a) = false /\ isPressed (rollRight a) = false).
  { unfold noDirectionPressed. fold a.
    destruct (isPressed (throttle a)), (isPressed (brake a)),
      (isPressed (yawLeft a)), (isPressed (yawRight a)),
      (isPressed (rollLeft a)), (isPressed (rollRight a));
      simpl; intuition congruence. }
  split; [ exact Hiff | ].
  intros Hidle. apply Hiff in Hidle.
  destruct Hidle as (Ht & Hb & Hyl & Hyr & Hrl & Hrr).
  destruct (update_targets simulate simulate_target timeStep this) as (Hs & Ha & He & Hr).
  fold after in Hs, Ha, He, Hr. fold a in Hs, Ha, He, Hr.
  rewrite Hs, Ha, He, Hr, elevatorTarget_tieBreak.
  rewrite (length_applied Quaternion_inverse Quaternion_vmult w _ _ false false false false
             eq_refl eq_refl Hyl Hyr Hrl Hrr).
  fold this. fold a.
  unfold steeringTarget, aileronTarget, rudderTarget, trust, partsRotationAmount.
  rewrite Ht, Hyl, Hyr, Hrl, Hrr. simpl.
  destruct (0 <? numWheelsOnGround this)%nat; repeat split; try reflexivity; try lia.
Qed.

End NoDirection.

Lemma noDirectionPressed_idle_witness :
  let w := Scenario.world (Scenario.airplane (Scenario.keys false true false false) true 0)
                          (Vec3.new 0 0 30)%float in
  List.length (applied Quaternion.inverse Quaternion.vmult w) = 6%nat.
Proof.
  intros w.
  destruct (noDirectionPressed_idle SampleSpring.simulate Quaternion.inverse
              Quaternion.vmult (fun _ _ => eq_refl) Scenario.frame w) as (_ & H).
  destruct (H eq_refl) as (_ & _ & _ & _ & _ & Hcount). exact Hcount.
Defined.

(** ** readAirplaneData *)

Section ReadAirplaneData.
Import Scene.
Local Open Scope string_scope.

Lemma bind_fields (this : Parts) (child : Object3D) :
  rotor (bind this child) = (if tagged "rotor" child then Some child else rotor this) /\
  rudder (bind this child) = (if tagged "rudder" child then Some child else rudder this) /\
  elevators (bind this child)
    = elevators this ++ (if tagged "elevator" child then [child] else []) /\
  leftAileron (bind this child)
    = (if aileronOn "left" child then Some child else leftAileron this) /\
  rightAileron (bind this child)
    = (if aileronOn "right" child then Some child else rightAileron this).
Proof.
  unfold bind, aileronOn, tagged.
  destruct (userData child) as [u | ];
    [ | cbn; rewrite app_nil_r; repeat split; reflexivity ].
  destruct (data u) as [d | ];
    [ | cbn; rewrite app_nil_r; repeat split; reflexivity ].
  destruct d as [t | ];
    [ | cbn; rewrite app_nil_r; destruct (side u); repeat split; reflexivity ].
  cbn [strictEq].
  destruct (String.eqb_spec t "rotor") as [-> | Hrotor];
    [ cbn; rewrite ?app_nil_r; repeat split; reflexivity | ].
  destruct (String.eqb_spec t "rudder") as [-> | Hrudder];
    [ cbn; rewrite ?app_nil_r; repeat split; reflexivity | ].
  destruct (String.eqb_spec t "elevator") as [-> | Helevator];
    [ cbn; repeat split; reflexivity | ].
  destruct (String.eqb_spec t "aileron") as [-> | Haileron];
    [ | cbn; rewrite app_nil_r; repeat split; reflexivity ].
  cbn [andb rotor rudder elevators leftAileron rightAileron].
  rewrite app_nil_r.
  destruct (side u) as [[s | ] | ]; cbn [strictEq];
    try (repeat split; reflexivity).
  destruct (String.eqb_spec s "left") as [-> | Hleft];
    [ cbn; repeat split; reflexivity | ].
  destruct (String.eqb s "right"); cbn; repeat split; reflexivity.
Qed.

Lemma readAirplaneData_fields (visited : list Object3D) :
  forall this : Parts,
    let after := readAirplaneData visited this in
    rotor after = lastOr (tagged "rotor") visited (rotor this) /\
    rudder after = lastOr (tagged "rudder") visited (rudder this) /\
    elevators after = elevators this ++ filter (tagged "elevator") visited /\
    leftAileron after = lastOr (aileronOn "left") visited (leftAileron this) /\
    rightAileron after = lastOr (aileronOn "right") visited (rightAileron this).
Proof.
  unfold readAirplaneData, lastOr.
  induction visited as [ | child rest IH ]; intros this; cbn [fold_left filter].
  - rewrite app_nil_r. auto.
  - destruct (bind_fields this child) as (Hrotor & Hrudder & Helev & Hleft & Hright).
    destruct (IH (bind this child)) as (IHrotor & IHrudder & IHelev & IHleft & IHright).
    cbv zeta. rewrite IHrotor, IHrudder, IHelev, IHleft, IHright.
    rewrite Hrotor, Hrudder, Helev, Hleft, Hright.
    repeat split; try reflexivity.
    rewrite <- app_assoc. destruct (tagged "elevator" child); reflexivity.
Qed.

Lemma lastOr_none (A : Type) (test : A -> bool) (l : list A) (d : option A) :
  forallb (fun x => negb (test x)) l = true -> lastOr test l d = d.
Proof.
  unfold lastOr. revert d.
  induction l as [ | x rest IH ]; intros d H; cbn [fold_left]; [ reflexivity | ].
  cbn [forallb] in H. apply andb_true_iff in H. destruct H as [Hx Hrest].
  apply negb_true_iff in Hx. rewrite Hx. now apply IH.
Qed.

Lemma lastOr_last (A : Type) (test : A -> bool) (before after : list A) (x : A)
    (d : option A) :
  test x = true -> forallb (fun y => negb (test y)) after = true ->
  lastOr test (before ++ x :: after) d = Some x.
Proof.
  intros Hx Hafter. unfold lastOr. rewrite fold_left_app. cbn [fold_left].
  rewrite Hx. now apply (lastOr_none A test after (Some x)).
Qed.

Lemma lastOr_bound (A : Type) (test : A -> bool) (l : list A) :
  lastOr test l None = None <-> forallb (fun x => negb (test x)) l = true.
Proof.
  split.
  - unfold lastOr.
    assert (H : forall d, fold_left (fun found x => if test x then Some x else found) l d = None ->
                          forallb (fun x => negb (test x)) l = true).
    { induction l as [ | x rest IH ]; intros d Hd; cbn [fold_left forallb] in *.
      - reflexivity.
      - destruct (test x) eqn:Hx.
        + exfalso. clear IH.
          assert (Hsome : forall l' y, fold_left
                     (fun found z => if test z then Some z else found) l' (Some y) <> None).
          { induction l' as [ | z l' IH' ]; intros y; cbn [fold_left].
            - discriminate.
            - destruct (test z); apply IH'. }
          exact (Hsome rest x Hd).
        + cbn [negb andb]. now apply (IH d). }
    apply H.
  - intros H. now apply lastOr_none.
Qed.

(** The elevators found are appended, in the order of the traversal, to
    those already bound.  For the rotor, the rudder and each aileron the
    last node visited that carries the tag (for an aileron, the tag and the
    side) is the one bound, and when no node carries it the part is left as
    it was. *)
Theorem readAirplaneData_binds (visited : list Object3D) (this : Parts) :
  let after := readAirplaneData visited this in
  elevators after = elevators this ++ filter (tagged "elevator") visited /\
  (forall before x rest,
     visited = before ++ x :: rest ->
     (tagged "rotor" x = true ->
      forallb (fun y => negb (tagged "rotor" y)) rest = true -> rotor after = Some x) /\
     (tagged "rudder" x = true ->
      forallb (fun y => negb (tagged "rudder" y)) rest = true -> rudder after = Some x) /\
     (aileronOn "left" x = true ->
      forallb (fun y => negb (aileronOn "left" y)) rest = true ->
      leftAileron after = Some x) /\
     (aileronOn "right" x = true ->
      forallb (fun y => negb (aileronOn "right" y)) rest = true ->
      rightAileron after = Some x)) /\
  (forallb (fun y => negb (tagged "rotor" y)) visited = true -> rotor after = rotor this) /\
  (forallb (fun y => negb (tagged "rudder" y)) visited = true -> rudder after = rudder this) /\
  (forallb (fun y => negb (aileronOn "left" y)) visited = true ->
   leftAileron after = leftAileron this) /\
  (forallb (fun y => negb (aileronOn "right" y)) visited = true ->
   rightAileron after = rightAileron this).
Proof.
  intros after.
  destruct (readAirplaneData_fields visited this) as (Hrotor & Hrudder & Helev & Hleft & Hright).
  fold after in Hrotor, Hrudder, Helev, Hleft, Hright.
  split; [ exact Helev | ].
  split.
  - intros before x rest ->.
    rewrite Hrotor, Hrudder, Hleft, Hright.
    repeat split; intros; now apply lastOr_last.
  - rewrite Hrotor, Hrudder, Hleft, Hright.
    repeat split; intros; now apply lastOr_none.
Qed.

(** Bound from scratch, a part is left undefined exactly when no node of
    the scene carries its tag; so the rotor, the rudder and both ailerons
    are all bound as soon as the scene has a node for each. *)
Theorem readAirplaneData_unbound_parts (visited : list Object3D) :
  let after := readAirplaneData visited unbound in
  (rotor after = None <-> forallb (fun y => negb (tagged "rotor" y)) visited = true) /\
  (rudder after = None <-> forallb (fun y => negb (tagged "rudder" y)) visited = true) /\
  (leftAileron after = None
   <-> forallb (fun y => negb (aileronOn "left" y)) visited = true) /\
  (rightAileron after = None
   <-> forallb (fun y => negb (aileronOn "right" y)) visited = true) /\
  List.length (elevators after)
  = List.length (filter (tagged "elevator") visited).
Proof.
  intros after.
  destruct (readAirplaneData_fields visited unbound) as (Hrotor & Hrudder & Helev & Hleft & Hright).
  fold after in Hrotor, Hrudder, Helev, Hleft, Hright.
  rewrite Hrotor, Hrudder, Helev, Hleft, Hright. cbn [unbound rotor rudder elevators leftAileron rightAileron app].
  repeat split; try apply lastOr_bound.
Qed.

(** Reading the same scene a second time binds the same rotor, rudder
    and ailerons, and appends every elevator once more. *)
Theorem readAirplaneData_twice (visited : list Object3D) (this : Parts) :
  let once := readAirplaneData visited this in
  let twice := readAirplaneData visited once in
  rotor twice = rotor once /\ rudder twice = rudder once /\
  leftAileron twice = leftAileron once /\ rightAileron twice = rightAileron once /\
  elevators twice = elevators once ++ filter (tagged "elevator") visited /\
  List.length (elevators twice)
  = (List.length (elevators this)
     + 2 * List.length (filter (tagged "elevator") visited))%nat.
Proof.
  intros once twice.
  destruct (readAirplaneData_fields visited this) as (Hrotor & Hrudder & Helev & Hleft & Hright).
  destruct (readAirplaneData_fields visited once) as (Hrotor2 & Hrudder2 & Helev2 & Hleft2 & Hright2).
  fold once in Hrotor, Hrudder, Helev, Hleft, Hright.
  fold twice in Hrotor2, Hrudder2, Helev2, Hleft2, Hright2.
  assert (Hidem : forall (test : Object3D -> bool) (d : option Object3D),
            lastOr test visited (lastOr test visited d) = lastOr test visited d).
  { intros test d.
    destruct (forallb (fun y => negb (test y)) visited) eqn:Hnone.
    - now rewrite !lastOr_none.
    - assert (Hex : exists before x rest, visited = before ++ x :: rest /\ test x = true
                      /\ forallb (fun y => negb (test y)) rest = true).
      { clear - Hnone. induction visited as [ | y l IH ]; [ discriminate | ].
        cbn [forallb] in Hnone.
        destruct (forallb (fun y => negb (test y)) l) eqn:Hl.
        - exists [], y, l. rewrite andb_true_r in Hnone.
          apply negb_false_iff in Hnone. auto.
        - destruct (IH eq_refl) as (before & x & rest & -> & Hx & Hrest).
          exists (y :: before), x, rest. auto. }
      destruct Hex as (before & x & rest & -> & Hx & Hrest).
      now rewrite !lastOr_last. }
  rewrite Hrotor2, Hrudder2, Hleft2, Hright2, Helev2.
  rewrite Hrotor, Hrudder, Hleft, Hright, Helev.
  rewrite !Hidem. repeat split.
  rewrite !length_app. lia.
Qed.

Lemma readAirplaneData_binds_witness :
  let after := readAirplaneData sampleScene unbound in
  elevators after = [ node 1 "elevator" None; node 6 "elevator" None ] /\
  rotor after = Some (node 5 "rotor" None) /\
  leftAileron after = Some (node 7 "aileron" (Some "left")) /\
  rightAileron after = Some (node 3 "aileron" (Some "right")) /\
  rudder after = None.
Proof.
  intros after.
  destruct (readAirplaneData_binds sampleScene unbound)
    as (Helev & Hlast & _ & Hrudder & _ & _).
  fold after in Helev, Hlast, Hrudder.
  split; [ exact Helev | ].
  split.
  { refine (proj1 (Hlast (firstn 5 sampleScene) _ (skipn 6 sampleScene) eq_refl) _ _);
      reflexivity. }
  split.
  { refine (proj1 (proj2 (proj2 (Hlast (firstn 7 sampleScene) _ [] eq_refl))) _ _);
      reflexivity. }
  split.
  { refine (proj2 (proj2 (proj2 (Hlast (firstn 3 sampleScene) _ (skipn 4 sampleScene)
                                       eq_refl))) _ _); reflexivity. }
  exact (Hrudder eq_refl).
Defined.

End ReadAirplaneData.
